(** * Task Automation Bot: a shallow embedding and its verified properties

    The development follows the Python sources module by module:
    [automation_bot/file_manager.py], [file_downloader.py],
    [report_generator.py], [config.py] and [notifier.py], then the
    script [task_automation_bot.py] that runs them.

    Conventions of the embedding.
    - A Python [str] is a Rocq [string], read as a sequence of code points
      below 256; [str.lower] is the Unicode lower-casing on that range.
    - A [pathlib.Path] is its parsed form (root and components), POSIX
      flavour, with the semantics of CPython 3.4 to 3.13.
    - The file system is a finite map from resolved absolute component lists
      to nodes, with one device, no symbolic links and no permission bits.
    - Statements with effects live in the monad [M]: a function of the
      world returning a value or a raised exception, and the next world.
    - Collaborators that the sources call but do not implement (the HTTP
      client, [urlparse], the SMTP server, the JSON decoder) are oracles
      stored in the world. *)

From Stdlib Require Import ZArith Lia Ascii String.
From stdpp Require Import gmap strings list fin_maps pretty.

Local Open Scope string_scope.

(** ** Python strings *)

Module Str.

Definition lower_char (c : ascii) : ascii :=
  let n := nat_of_ascii c in
  if ((65 <=? n)%nat && (n <=? 90)%nat)
     || ((192 <=? n)%nat && (n <=? 222)%nat && negb (n =? 215)%nat)
  then ascii_of_nat (n + 32) else c.

(** [s.lower()] *)
Fixpoint lower (s : string) : string :=
  match s with
  | EmptyString => EmptyString
  | String c r => String (lower_char c) (lower r)
  end.

(** [len(s)] *)
Definition len (s : string) : Z := Z.of_nat (String.length s).

(** [s.rfind(c)], [-1] when [c] does not occur. *)
Fixpoint rfind (c : ascii) (s : string) : Z :=
  match s with
  | EmptyString => -1
  | String x r =>
      let i := rfind c r in
      if (0 <=? i)%Z then (i + 1)%Z
      else if Ascii.eqb x c then 0%Z else (-1)%Z
  end.

(** [s[:n]] and [s[n:]] for a non-negative [n]. *)
Fixpoint take (n : nat) (s : string) : string :=
  match n, s with
  | S n', String c r => String c (take n' r)
  | _, _ => EmptyString
  end.

Fixpoint drop (n : nat) (s : string) : string :=
  match n, s with
  | S n', String _ r => drop n' r
  | _, _ => s
  end.

(** [c in s] *)
Fixpoint contains (c : ascii) (s : string) : bool :=
  match s with
  | EmptyString => false
  | String x r => Ascii.eqb x c || contains c r
  end.

(** [s.split(sep)] for a one-character separator. *)
Fixpoint split (sep : ascii) (s : string) : list string :=
  match s with
  | EmptyString => [EmptyString]
  | String c r =>
      if Ascii.eqb c sep then EmptyString :: split sep r
      else match split sep r with
           | [] => [String c EmptyString]
           | h :: t => String c h :: t
           end
  end.

(** [sep.join(l)] *)
Fixpoint join (sep : string) (l : list string) : string :=
  match l with
  | [] => EmptyString
  | [x] => x
  | x :: r => x +:+ sep +:+ join sep r
  end.

(** The line boundaries of [str.splitlines] below code point 256. *)
Definition is_linebreak (c : ascii) : bool :=
  let n := nat_of_ascii c in
  ((10 <=? n)%nat && (n <=? 13)%nat)
  || ((28 <=? n)%nat && (n <=? 30)%nat) || (n =? 133)%nat.

(** [len(s.splitlines())]: a carriage return followed by a line feed is
    one boundary, and text after the last boundary is a line. *)
Fixpoint count_lines (pending : bool) (s : string) : nat :=
  match s with
  | EmptyString => if pending then 1 else 0
  | String c r =>
      if is_linebreak c then
        match r with
        | String d r' =>
            if (nat_of_ascii c =? 13)%nat && (nat_of_ascii d =? 10)%nat
            then S (count_lines false r')
            else S (count_lines false r)
        | EmptyString => 1
        end
      else count_lines true r
  end.

(** The characters of a string, as Python iterates over a [str]. *)
Fixpoint chars (s : string) : list string :=
  match s with
  | EmptyString => []
  | String c r => String c EmptyString :: chars r
  end.

End Str.

(** ** Python values and exceptions *)

(** The values the JSON decoder produces (numbers with a fraction or an
    exponent are outside the model). *)
#[local] Unset Elimination Schemes.
Inductive pyval : Type :=
  | PNone
  | PBool (b : bool)
  | PInt (z : Z)
  | PStr (s : string)
  | PList (l : list pyval)
  | PDict (d : list (string * pyval)).
#[local] Set Elimination Schemes.

(** Truth value testing: [bool(v)]. *)
Definition truthy (v : pyval) : bool :=
  match v with
  | PNone => false
  | PBool b => b
  | PInt z => negb (z =? 0)%Z
  | PStr s => negb (String.eqb s EmptyString)
  | PList l => match l with [] => false | _ => true end
  | PDict d => match d with [] => false | _ => true end
  end.

(** A [dict] keeps its items in insertion order, one item per key. *)
Fixpoint dict_lookup (d : list (string * pyval)) (key : string) : option pyval :=
  match d with
  | [] => None
  | (k, v) :: r => if String.eqb k key then Some v else dict_lookup r key
  end.

(** [d.get(key, dflt)] *)
Definition dict_get (d : list (string * pyval)) (key : string) (dflt : pyval) : pyval :=
  match dict_lookup d key with
  | Some v => v
  | None => dflt
  end.

Inductive exn : Type :=
  | FileNotFoundError
  | NotADirectoryError
  | IsADirectoryError
  | FileExistsError
  | PermissionError
  | OSError
  | ShutilError
  | RequestException
  | HTTPError
  | SMTPException
  | ValueError
  | TypeError
  | AttributeError
  | UnicodeDecodeError
  | JSONDecodeError.

Global Instance exn_eq_dec : EqDecision exn.
Proof. solve_decision. Defined.

(** [isinstance(e, OSError)] *)
Definition is_OSError (e : exn) : bool :=
  match e with
  | FileNotFoundError | NotADirectoryError | IsADirectoryError
  | FileExistsError | PermissionError | OSError | ShutilError
  | RequestException | HTTPError | SMTPException => true
  | _ => false
  end.

(** [isinstance(e, Exception)]: every modelled exception. *)
Definition is_Exception (e : exn) : bool := true.

Definition is_FileNotFoundError (e : exn) : bool := bool_decide (e = FileNotFoundError).
Definition is_JSONDecodeError (e : exn) : bool := bool_decide (e = JSONDecodeError).

(** The outcome of a call: a value, or an exception raised. *)
Inductive result (A : Type) : Type :=
  | Ok (a : A)
  | Raise (e : exn).
Arguments Ok {A} a.
Arguments Raise {A} e.

(** ** pathlib (POSIX flavour) *)

Module pathlib.

Record Path : Type := mkPath { root : string; tail : list string }.

Global Instance Path_eq_dec : EqDecision Path.
Proof. solve_decision. Defined.

(** [posixpath.splitroot]: the root and the rest of a path string. *)
Definition splitroot (p : string) : string * string :=
  match p with
  | String "/" (String "/" (String "/" r)) => ("/", String "/" (String "/" r))
  | String "/" (String "/" r) => ("//", r)
  | String "/" r => ("/", r)
  | _ => (EmptyString, p)
  end.

Definition kept_component (x : string) : bool :=
  negb (String.eqb x EmptyString) && negb (String.eqb x ".").

(** [Path(s)] *)
Definition parse (s : string) : Path :=
  let '(r, rel) := splitroot s in
  {| root := r; tail := List.filter kept_component (Str.split "/" rel) |}.

(** [p.name]: the final component, empty when there is none. *)
Definition name (p : Path) : string :=
  match last (tail p) with
  | Some n => n
  | None => EmptyString
  end.

Definition has_suffix (name : string) : bool :=
  let i := Str.rfind "." name in
  (0 <? i)%Z && (i <? Str.len name - 1)%Z.

(** [p.suffix] *)
Definition suffix (p : Path) : string :=
  let name := name p in
  if has_suffix name then Str.drop (Z.to_nat (Str.rfind "." name)) name
  else EmptyString.

(** [p.stem] *)
Definition stem (p : Path) : string :=
  let name := name p in
  if has_suffix name then Str.take (Z.to_nat (Str.rfind "." name)) name
  else name.

(** [p.parent] *)
Definition parent (p : Path) : Path :=
  {| root := root p; tail := removelast (tail p) |}.

Definition valid_name (n : string) : bool :=
  negb (String.eqb n EmptyString) && negb (Str.contains "/" n)
  && negb (String.eqb n ".").

(** [p.with_name(n)] *)
Definition with_name (p : Path) (n : string) : result Path :=
  if String.eqb (name p) EmptyString then Raise ValueError
  else if negb (valid_name n) then Raise ValueError
  else Ok {| root := root p; tail := removelast (tail p) ++ [n] |}.

(** [p / s] for a string [s] *)
Definition joinpath (p : Path) (s : string) : Path :=
  let q := parse s in
  if String.eqb (root q) EmptyString
  then {| root := root p; tail := tail p ++ tail q |}
  else q.

(** [str(p)] *)
Definition str (p : Path) : string :=
  match root p, tail p with
  | EmptyString, [] => "."
  | r, t => r +:+ Str.join "/" t
  end.

(** A path as [parse] produces it. *)
Definition wf (p : Path) : Prop :=
  Forall (fun c => valid_name c = true) (tail p).

End pathlib.

Export pathlib.
Notation "p // s" := (joinpath p s) (at level 40, left associativity).

(** ** The world: file system, log, network and library oracles *)

Inductive node : Type :=
  | File (content : string)
  | Dir.

Inductive level : Type := INFO | WARNING | ERROR.

(** A log record: level, format string and the rendered arguments;
    [logger.exception] also records the exception. *)
Record log_record : Type :=
  LogRecord { lvl : level; fmt : string; args : list pyval; exc_info : option exn }.

Record EmailMessage : Type := mkMessage {
  headers : list (string * pyval);
  content : string;
  attachments : list (string * string)
}.

Inductive net_event : Type :=
  | HttpGet (url : string) (timeout : nat)
  | SmtpConnect (host port : pyval) (timeout : nat)
  | SmtpStartTls
  | SmtpLogin (username password : pyval)
  | SmtpSendMessage (m : EmailMessage)
  | SmtpQuit.

(** What the program calls and does not implement.  The network oracles
    see the history of the events so far. *)
Record library : Type := {
  urlparse_path : string -> result string;
  requests_get : list net_event -> string -> result (Z * string);
  smtp_reply : list net_event -> net_event -> option exn;
  json_loads : string -> option pyval;
  header_factory : string -> pyval -> option exn;
  dir_st_size : nat
}.

Record world : Type := mkWorld {
  fs : gmap (list string) node;
  cwd : list string;
  buffers : gmap (list string) string;
  log : list log_record;
  wire : list net_event;
  lib : library
}.

Definition set_fs (f : gmap (list string) node) (w : world) : world :=
  {| fs := f; cwd := cwd w; buffers := buffers w; log := log w; wire := wire w; lib := lib w |}.
Definition set_buffers (b : gmap (list string) string) (w : world) : world :=
  {| fs := fs w; cwd := cwd w; buffers := b; log := log w; wire := wire w; lib := lib w |}.
Definition add_log (r : log_record) (w : world) : world :=
  {| fs := fs w; cwd := cwd w; buffers := buffers w; log := log w ++ [r]; wire := wire w; lib := lib w |}.
Definition add_wire (e : net_event) (w : world) : world :=
  {| fs := fs w; cwd := cwd w; buffers := buffers w; log := log w; wire := wire w ++ [e]; lib := lib w |}.

(** ** The monad of statements *)

Definition M (A : Type) : Type := world -> result A * world.

Definition ret {A} (a : A) : M A := fun w => (Ok a, w).

Definition bind {A B} (m : M A) (f : A -> M B) : M B :=
  fun w =>
    match m w with
    | (Ok a, w') => f a w'
    | (Raise e, w') => (Raise e, w')
    end.

Declare Scope M_scope.
Delimit Scope M_scope with M.
Notation "x ← y ; z" := (bind y (fun x => z))
  (at level 20, y at level 100, z at level 200, only parsing) : M_scope.
Notation "x ;; z" := (bind x (fun _ => z))
  (at level 100, z at level 200, only parsing, right associativity) : M_scope.
Open Scope M_scope.

Definition raise {A} (e : exn) : M A := fun w => (Raise e, w).

(** [try: body except <classes>: handler] *)
Definition try_except {A} (body : M A) (catches : exn -> bool) (handler : exn -> M A) : M A :=
  fun w =>
    match body w with
    | (Ok a, w') => (Ok a, w')
    | (Raise e, w') => if catches e then handler e w' else (Raise e, w')
    end.

(** Leaving a [with] block: [cleanup] runs on both exits. *)
Definition with_exit {A} (body : M A) (cleanup : M unit) : M A :=
  fun w =>
    match body w with
    | (r, w') =>
        match cleanup w' with
        | (Ok _, w'') => (r, w'')
        | (Raise e, w'') => (Raise e, w'')
        end
    end.

(** [for x in items: body], threading the loop's local state. *)
Fixpoint for_in {A S} (items : list A) (body : A -> S -> M S) (s : S) : M S :=
  match items with
  | [] => ret s
  | x :: rest => s' ← body x s; for_in rest body s'
  end.

Definition lift {A} (r : result A) : M A := fun w => (r, w).

(** logging *)
Definition logger_info (f : string) (a : list pyval) : M unit :=
  fun w => (Ok tt, add_log (LogRecord INFO f a None) w).
Definition logger_warning (f : string) (a : list pyval) : M unit :=
  fun w => (Ok tt, add_log (LogRecord WARNING f a None) w).
Definition logger_exception (f : string) (a : list pyval) (e : exn) : M unit :=
  fun w => (Ok tt, add_log (LogRecord ERROR f a (Some e)) w).

(** ** Operating-system calls on the modelled file system *)

Module os.

(** The root directory always exists. *)
Definition node_at (f : gmap (list string) node) (k : list string) : option node :=
  match k with
  | [] => Some Dir
  | _ => f !! k
  end.

Definition step_into (cur : list string) (c : string) : list string :=
  if String.eqb c ".." then removelast cur else cur ++ [c].

(** Path resolution: every component is looked up in a directory. *)
Fixpoint walk (f : gmap (list string) node) (cur : list string)
    (comps : list string) : result (list string) :=
  match comps with
  | [] => Ok cur
  | c :: rest =>
      match node_at f cur with
      | Some Dir => walk f (step_into cur c) rest
      | Some (File _) => Raise NotADirectoryError
      | None => Raise FileNotFoundError
      end
  end.

Definition start (w : world) (p : Path) : list string :=
  if String.eqb (root p) EmptyString then cwd w else [].

Definition resolve (w : world) (p : Path) : result (list string) :=
  walk (fs w) (start w p) (tail p).

(** The node a path names, with the errors of stat(2). *)
Definition lookup_node (p : Path) : M node :=
  fun w =>
    match resolve w p with
    | Raise e => (Raise e, w)
    | Ok k =>
        match node_at (fs w) k with
        | Some n => (Ok n, w)
        | None => (Raise FileNotFoundError, w)
        end
    end.

Record stat_result : Type := { st_isdir : bool; st_size : nat }.

(** [os.stat(p)] *)
Definition stat (p : Path) : M stat_result :=
  fun w =>
    match lookup_node p w with
    | (Ok (File c), w') => (Ok {| st_isdir := false; st_size := String.length c |}, w')
    | (Ok Dir, w') => (Ok {| st_isdir := true; st_size := dir_st_size (lib w) |}, w')
    | (Raise e, w') => (Raise e, w')
    end.

Definition has_children (f : gmap (list string) node) (k : list string) : bool :=
  existsb (fun kv => bool_decide (k ≠ kv.1) && bool_decide (k `prefix_of` kv.1))
          (map_to_list f).

Definition rekey (src dst k : list string) : list string :=
  if bool_decide (src `prefix_of` k) then dst ++ drop (length src) k else k.

(** Moving the node at [src], with everything below it, to [dst]. *)
Definition move_tree (f : gmap (list string) node) (src dst : list string)
    : gmap (list string) node :=
  list_to_map (prod_map (rekey src dst) id <$> map_to_list (delete dst f)).

(** [os.rename(src, dst)] (rename(2)) *)
Definition rename (src dst : Path) : M unit :=
  fun w =>
    match resolve w src, resolve w dst with
    | Raise e, _ => (Raise e, w)
    | Ok _, Raise e => (Raise e, w)
    | Ok ks, Ok kd =>
        match node_at (fs w) ks with
        | None => (Raise FileNotFoundError, w)
        | Some n =>
            if bool_decide (ks = kd) then (Ok tt, w)
            else if bool_decide (ks = []) || bool_decide (kd = []) then (Raise OSError, w)
            else
              match n, node_at (fs w) kd with
              | File _, Some Dir => (Raise IsADirectoryError, w)
              | File _, _ => (Ok tt, set_fs (move_tree (fs w) ks kd) w)
              | Dir, Some (File _) => (Raise NotADirectoryError, w)
              | Dir, _ =>
                  if bool_decide (ks `prefix_of` kd) then (Raise OSError, w)
                  else if has_children (fs w) kd then (Raise OSError, w)
                  else (Ok tt, set_fs (move_tree (fs w) ks kd) w)
              end
        end
    end.

(** Creation of a directory and of its missing ancestors, component by
    component; the directories made before a failure stay. *)
Fixpoint makedirs (exist_ok : bool) (f : gmap (list string) node)
    (cur : list string) (comps : list string)
    : result (list string) * gmap (list string) node :=
  match comps with
  | [] =>
      match node_at f cur with
      | Some Dir => if exist_ok then (Ok cur, f) else (Raise FileExistsError, f)
      | Some (File _) => (Raise FileExistsError, f)
      | None => (Ok cur, <[cur := Dir]> f)
      end
  | c :: rest =>
      match node_at f cur with
      | Some Dir => makedirs exist_ok f (step_into cur c) rest
      | Some (File _) => (Raise NotADirectoryError, f)
      | None => makedirs exist_ok (<[cur := Dir]> f) (step_into cur c) rest
      end
  end.

(** [p.mkdir(parents=True, exist_ok=True)] *)
Definition mkdir (p : Path) : M unit :=
  fun w =>
    match makedirs true (fs w) (start w p) (tail p) with
    | (Ok _, f) => (Ok tt, set_fs f w)
    | (Raise e, f) => (Raise e, set_fs f w)
    end.

(** [p.exists()]: [stat] with the errors of a missing path ignored. *)
Definition ignore_error (e : exn) : bool :=
  match e with
  | FileNotFoundError | NotADirectoryError => true
  | _ => false
  end.

Definition exists_ (p : Path) : M bool :=
  try_except (stat p ;; ret true) ignore_error (fun _ => ret false).

(** [os.path.isdir(p)] *)
Definition isdir (p : Path) : M bool :=
  try_except (st ← stat p; ret (st_isdir st)) is_OSError (fun _ => ret false).

(** [p.open("w")] / [p.open("wb")]: the file is created or truncated;
    what is written stays in the buffer until the file is closed. *)
Definition open_w (p : Path) : M (list string) :=
  fun w =>
    match resolve w p with
    | Raise e => (Raise e, w)
    | Ok k =>
        match node_at (fs w) k with
        | Some Dir => (Raise IsADirectoryError, w)
        | _ => (Ok k, set_buffers (<[k := EmptyString]> (buffers w))
                        (set_fs (<[k := File EmptyString]> (fs w)) w))
        end
    end.

(** [f.write(data)] *)
Definition write (k : list string) (data : string) : M unit :=
  fun w =>
    let old := match buffers w !! k with Some b => b | None => EmptyString end in
    (Ok tt, set_buffers (<[k := old +:+ data]> (buffers w)) w).

(** [f.close()]: the buffer reaches the file. *)
Definition close (k : list string) : M unit :=
  fun w =>
    match buffers w !! k with
    | Some b =>
        let old := match fs w !! k with Some (File c) => c | _ => EmptyString end in
        (Ok tt, set_buffers (delete k (buffers w)) (set_fs (<[k := File (old +:+ b)]> (fs w)) w))
    | None => (Ok tt, w)
    end.

(** [with p.open("w") as f: body] *)
Definition with_open_w {A} (p : Path) (body : list string -> M A) : M A :=
  k ← open_w p; with_exit (body k) (close k).

(** [with p.open("rb") as f: f.read()] *)
Definition read_bytes (p : Path) : M string :=
  fun w =>
    match lookup_node p w with
    | (Ok (File c), _) => (Ok c, w)
    | (Ok Dir, _) => (Raise IsADirectoryError, w)
    | (Raise e, _) => (Raise e, w)
    end.

(** [os.unlink(p)] *)
Definition unlink (p : Path) : M unit :=
  fun w =>
    match resolve w p with
    | Raise e => (Raise e, w)
    | Ok k =>
        match node_at (fs w) k with
        | Some (File _) => (Ok tt, set_fs (delete k (fs w)) w)
        | Some Dir => (Raise IsADirectoryError, w)
        | None => (Raise FileNotFoundError, w)
        end
    end.

(** [os.path.abspath]: the lexical normal form of a path. *)
Definition abspath (w : world) (p : Path) : list string :=
  fold_left step_into (tail p) (start w p).

End os.

(** ** shutil *)

Module shutil.

(** [_samefile(src, dst)] *)
Definition _samefile (src dst : Path) : M bool :=
  fun w =>
    match os.resolve w src, os.resolve w dst with
    | Ok ks, Ok kd =>
        match os.node_at (fs w) ks, os.node_at (fs w) kd with
        | Some _, Some _ => (Ok (bool_decide (ks = kd)), w)
        | _, _ => (Ok false, w)
        end
    | _, _ => (Ok false, w)
    end.

(** [_destinsrc(src, dst)] *)
Definition _destinsrc (src dst : Path) : M bool :=
  fun w => (Ok (bool_decide (os.abspath w src `prefix_of` os.abspath w dst)), w).

(** [copytree(src, real_dst, symlinks=True)] followed by [rmtree(src)]. *)
Definition copytree_rmtree (src real_dst : Path) : M unit :=
  fun w =>
    match os.resolve w src with
    | Raise e => (Raise e, w)
    | Ok ks =>
        match os.makedirs false (fs w) (os.start w real_dst) (tail real_dst) with
        | (Ok kd, f) => (Ok tt, set_fs (os.move_tree f ks kd) w)
        | (Raise e, f) => (Raise e, set_fs f w)
        end
    end.

(** [copy2(src, real_dst)] followed by [os.unlink(src)]. *)
Definition copy2_unlink (src real_dst : Path) : M unit :=
  data ← os.read_bytes src;
  os.with_open_w real_dst (fun f => os.write f data);;
  os.unlink src.

(** [shutil.move(src, dst)] *)
Definition move (src dst : Path) : M unit :=
  d ← os.isdir dst;
  same ← (if d then _samefile src dst else ret false);
  if same then os.rename src dst
  else
    real_dst ← (if d then
                  let real_dst := dst // name src in
                  e ← os.exists_ real_dst;
                  if e then raise ShutilError else ret real_dst
                else ret dst);
    try_except (os.rename src real_dst) is_OSError
      (fun _ =>
         sd ← os.isdir src;
         if sd then
           inside ← _destinsrc src dst;
           if inside then raise ShutilError else copytree_rmtree src real_dst
         else copy2_unlink src real_dst).

End shutil.

(** ** automation_bot/file_manager.py *)

Module file_manager.

(** Keys are lowercase file extensions (including the dot), values are
    folder names. *)
Record FileSortConfig : Type := {
  extension_map : gmap string string;
  other_folder : string
}.

Definition FileSortConfig_default : FileSortConfig := {|
  extension_map := list_to_map [
    (".pdf", "documents");
    (".doc", "documents");
    (".docx", "documents");
    (".txt", "documents");
    (".csv", "data");
    (".xlsx", "data");
    (".xls", "data");
    (".jpg", "images");
    (".jpeg", "images");
    (".png", "images");
    (".gif", "images");
    (".mp4", "videos");
    (".mkv", "videos");
    (".mp3", "audio")
  ];
  other_folder := "others"
|}.

Record FileManager : Type := {
  base_dir : Path;
  sort_config : FileSortConfig
}.

(** [FileManager(base_dir, sort_config)] *)
Definition __init__ (base_dir : Path) (sort_config : option FileSortConfig) : M FileManager :=
  os.mkdir base_dir;;
  ret {| base_dir := base_dir;
          sort_config := match sort_config with
                         | Some c => c
                         | None => FileSortConfig_default
                         end |}.

Definition _build_new_name (filename prefix suffix : string) : string :=
  let stem := pathlib.stem (pathlib.parse filename) in
  let ext := pathlib.suffix (pathlib.parse filename) in
  prefix +:+ stem +:+ suffix +:+ ext.

(** The body of the loop of [rename_files]. *)
Definition rename_one (prefix suffix : string) (path : Path)
    (renamed_files : list Path) : M (list Path) :=
  try_except
    (found ← os.exists_ path;
     if negb found then
       logger_warning "File not found, skipping rename: %s" [PStr (str path)];;
       ret renamed_files
     else
       let new_name := _build_new_name (name path) prefix suffix in
       new_path ← lift (with_name path new_name);
       logger_info "Renaming %s -> %s" [PStr (name path); PStr (name new_path)];;
       os.rename path new_path;;
       ret (renamed_files ++ [new_path])%list)
    is_Exception
    (fun exc =>
       logger_exception "Failed to rename file %s: %s" [PStr (str path)] exc;;
       ret renamed_files).

Definition rename_files (self : FileManager) (files : list Path)
    (prefix suffix : string) : M (list Path) :=
  for_in files (rename_one prefix suffix) [].

(** [extension_map.get(ext, other_folder)] on the lowercased extension. *)
Definition target_folder_of (cfg : FileSortConfig) (path_suffix : string) : string :=
  let ext := Str.lower path_suffix in
  match extension_map cfg !! ext with
  | Some folder => folder
  | None => other_folder cfg
  end.

(** The body of the loop of [sort_files_by_extension]. *)
Definition sort_one (self : FileManager) (path : Path)
    (sorted_files : list Path) : M (list Path) :=
  try_except
    (found ← os.exists_ path;
     if negb found then
       logger_warning "File not found, skipping sort: %s" [PStr (str path)];;
       ret sorted_files
     else
       let target_folder := target_folder_of (sort_config self) (pathlib.suffix path) in
       let target_dir := base_dir self // target_folder in
       os.mkdir target_dir;;
       let new_path := target_dir // name path in
       logger_info "Moving %s -> %s" [PStr (str path); PStr (str new_path)];;
       shutil.move path new_path;;
       ret (sorted_files ++ [new_path])%list)
    is_Exception
    (fun exc =>
       logger_exception "Failed to move file %s: %s" [PStr (str path)] exc;;
       ret sorted_files).

Definition sort_files_by_extension (self : FileManager) (files : list Path)
    : M (list Path) :=
  for_in files (sort_one self) [].

End file_manager.

(** ** automation_bot/file_downloader.py *)

Module file_downloader.

Record FileDownloader : Type := { download_dir : Path }.

Definition __init__ (download_dir : Path) : M FileDownloader :=
  os.mkdir download_dir;;
  ret {| download_dir := download_dir |}.

(** [urlparse(url).path] *)
Definition urlparse_path_of (url : string) : M string :=
  fun w => (urlparse_path (lib w) url, w).

(** [requests.get(url, timeout=30)]: the status code and the body. *)
Definition requests_get_ (url : string) (timeout : nat) : M (Z * string) :=
  fun w => (requests_get (lib w) (wire w) url, add_wire (HttpGet url timeout) w).

(** [response.raise_for_status()] *)
Definition raise_for_status (response : Z * string) : M unit :=
  if (400 <=? response.1)%Z && (response.1 <? 600)%Z then raise HTTPError
  else ret tt.

Definition _download_single (self : FileDownloader) (url : string) : M (option Path) :=
  logger_info "Downloading: %s" [PStr url];;
  parsed_path ← urlparse_path_of url;
  let filename :=
    let n := name (pathlib.parse parsed_path) in
    if String.eqb n EmptyString then "downloaded_file" else n in
  let dest_path := download_dir self // filename in
  response ← requests_get_ url 30;
  raise_for_status response;;
  os.with_open_w dest_path (fun f => os.write f response.2);;
  logger_info "Downloaded %s -> %s" [PStr url; PStr (str dest_path)];;
  ret (Some dest_path).

(** The body of the loop of [download_files]. *)
Definition download_one (self : FileDownloader) (url : string)
    (downloaded_paths : list Path) : M (list Path) :=
  try_except
    (path ← _download_single self url;
     match path with
     | Some p => ret (downloaded_paths ++ [p])%list
     | None => ret downloaded_paths
     end)
    is_Exception
    (fun exc =>
       logger_exception "Failed to download %s: %s" [PStr url] exc;;
       ret downloaded_paths).

Definition download_files (self : FileDownloader) (urls : list string) : M (list Path) :=
  for_in urls (download_one self) [].

End file_downloader.

(** ** csv (the default [excel] dialect) *)

Module csv.

Definition quotechar : ascii := ascii_of_nat 34.
Definition CR : ascii := ascii_of_nat 13.
Definition LF : ascii := ascii_of_nat 10.
Definition lineterminator : string := String CR (String LF EmptyString).

(** QUOTE_MINIMAL: a field is quoted when it holds the delimiter, the
    quote character or a character of the line terminator. *)
Definition needs_quotes (field : string) : bool :=
  Str.contains "," field || Str.contains quotechar field
  || Str.contains CR field || Str.contains LF field.

(** doublequote: a quote character inside a field is written twice. *)
Fixpoint double_quotes (field : string) : string :=
  match field with
  | EmptyString => EmptyString
  | String c r =>
      if Ascii.eqb c quotechar then String c (String c (double_quotes r))
      else String c (double_quotes r)
  end.

Definition quoted (field : string) : string :=
  String quotechar (double_quotes field +:+ String quotechar EmptyString).

Definition write_field (field : string) : string :=
  if needs_quotes field then quoted field else field.

(** The text of one record; a record that is one empty field is written
    as an empty quoted field. *)
Definition format_row (row : list string) : string :=
  match row with
  | [EmptyString] => quoted EmptyString +:+ lineterminator
  | _ => Str.join "," (write_field <$> row) +:+ lineterminator
  end.

(** [writer.writerow(row)] on the file object [f]. *)
Definition writerow (f : list string) (row : list string) : M unit :=
  os.write f (format_row row).

End csv.

(** ** automation_bot/report_generator.py *)

Module report_generator.

Record FileInfo : Type := { path : Path }.

Definition FileInfo_name (self : FileInfo) : string := name (path self).

Definition FileInfo_extension (self : FileInfo) : string :=
  Str.lower (pathlib.suffix (path self)).

Definition FileInfo_size_bytes (self : FileInfo) : M nat :=
  try_except
    (st ← os.stat (path self); ret (os.st_size st))
    is_FileNotFoundError
    (fun _ => ret 0).

Definition FileInfo_folder (self : FileInfo) : string :=
  name (pathlib.parent (path self)).

Record ReportGenerator : Type := { reports_dir : Path }.

Definition __init__ (reports_dir : Path) : M ReportGenerator :=
  os.mkdir reports_dir;;
  ret {| reports_dir := reports_dir |}.

Definition header_row : list string :=
  ["file_name"; "extension"; "size_bytes"; "folder"].

(** The body of the loop over [file_infos]. *)
Definition write_info (f : list string) (info : FileInfo) (_ : unit) : M unit :=
  size ← FileInfo_size_bytes info;
  csv.writerow f [FileInfo_name info; FileInfo_extension info;
                  pretty size; FileInfo_folder info].

Definition generate_file_report (self : ReportGenerator) (files : list Path)
    (output_name : string) : M Path :=
  let report_path := reports_dir self // output_name in
  let file_infos := (fun f => {| path := f |}) <$> files in
  logger_info "Generating report: %s" [PStr (str report_path)];;
  os.with_open_w report_path (fun f =>
    csv.writerow f header_row;;
    for_in file_infos (write_info f) tt);;
  logger_info "Report generated: %s" [PStr (str report_path)];;
  ret report_path.

End report_generator.

(** ** The utf-8 codec *)

Module codecs.

Definition between (lo hi : nat) (c : ascii) : bool :=
  (lo <=? nat_of_ascii c)%nat && (nat_of_ascii c <=? hi)%nat.

Definition continuation (c : ascii) : bool := between 128 191 c.

Definition three_bytes (a b c : ascii) : bool :=
  (between 224 224 a && between 160 191 b && continuation c)
  || (between 225 236 a && continuation b && continuation c)
  || (between 237 237 a && between 128 159 b && continuation c)
  || (between 238 239 a && continuation b && continuation c).

Definition four_bytes (a b c d : ascii) : bool :=
  ((between 240 240 a && between 144 191 b)
   || (between 241 243 a && continuation b)
   || (between 244 244 a && between 128 143 b))
  && continuation c && continuation d.

(** Whether [bytes.decode("utf-8")] succeeds. *)
Fixpoint utf8_valid (s : string) : bool :=
  match s with
  | EmptyString => true
  | String a r =>
      if between 0 127 a then utf8_valid r
      else
        match r with
        | EmptyString => false
        | String b r1 =>
            if between 194 223 a then continuation b && utf8_valid r1
            else
              match r1 with
              | EmptyString => false
              | String c r2 =>
                  if between 224 239 a then three_bytes a b c && utf8_valid r2
                  else
                    match r2 with
                    | EmptyString => false
                    | String d r3 => four_bytes a b c d && utf8_valid r3
                    end
              end
        end
  end.

End codecs.

(** ** automation_bot/config.py *)

Module config.

Record EmailConfig : Type := {
  enabled : pyval;
  smtp_server : pyval;
  smtp_port : pyval;
  use_tls : pyval;
  username : pyval;
  password : pyval;
  from_address : pyval;
  to_addresses : pyval
}.

(** [EmailConfig()] *)
Definition EmailConfig_default : EmailConfig := {|
  enabled := PBool false;
  smtp_server := PStr "smtp.example.com";
  smtp_port := PInt 587;
  use_tls := PBool true;
  username := PStr EmptyString;
  password := PStr EmptyString;
  from_address := PStr EmptyString;
  to_addresses := PList []
|}.

Record Config : Type := {
  download_urls : pyval;
  download_dir : Path;
  working_dir : Path;
  reports_dir : Path;
  logs_dir : Path;
  rename_prefix : pyval;
  rename_suffix : pyval;
  sort_by_extension : pyval;
  email : EmailConfig
}.

(** [obj.get(key, dflt)]: only a [dict] has the method. *)
Definition get (obj : pyval) (key : string) (dflt : pyval) : M pyval :=
  match obj with
  | PDict d => ret (dict_get d key dflt)
  | _ => raise AttributeError
  end.

(** [Path(obj.get(key, dflt))] for a default that is a [Path]. *)
Definition get_Path (obj : pyval) (key : string) (dflt : Path) : M Path :=
  match obj with
  | PDict d =>
      match dict_lookup d key with
      | Some (PStr s) => ret (pathlib.parse s)
      | Some _ => raise TypeError
      | None => ret dflt
      end
  | _ => raise AttributeError
  end.

(** [with path.open("r", encoding="utf-8") as f: json.load(f)] *)
Definition json_load (path : Path) : M pyval :=
  raw ← os.read_bytes path;
  if codecs.utf8_valid raw then
    fun w =>
      match json_loads (lib w) raw with
      | Some v => (Ok v, w)
      | None => (Raise JSONDecodeError, w)
      end
  else raise UnicodeDecodeError.

Section with_BASE_DIR.

(** [Path(__file__).resolve().parent.parent] *)
Variable BASE_DIR : Path.

(** [Config.default()] *)
Definition default : Config := {|
  download_urls := PList [];
  download_dir := BASE_DIR // "downloads";
  working_dir := BASE_DIR // "downloads";
  reports_dir := BASE_DIR // "reports";
  logs_dir := BASE_DIR // "logs";
  rename_prefix := PStr EmptyString;
  rename_suffix := PStr EmptyString;
  sort_by_extension := PBool true;
  email := EmailConfig_default
|}.

Definition load_config (path : option Path) : M Config :=
  let path := match path with
              | None => BASE_DIR // "config" // "settings.json"
              | Some p => p
              end in
  found ← os.exists_ path;
  if negb found then ret default
  else
    loaded ← try_except (data ← json_load path; ret (Some data))
                        is_JSONDecodeError (fun _ => ret None);
    match loaded with
    | None => ret default
    | Some data =>
        email_data ← get data "email" (PDict []);
        e_enabled ← get email_data "enabled" (PBool false);
        e_smtp_server ← get email_data "smtp_server" (PStr "smtp.example.com");
        e_smtp_port ← get email_data "smtp_port" (PInt 587);
        e_use_tls ← get email_data "use_tls" (PBool true);
        e_username ← get email_data "username" (PStr EmptyString);
        e_password ← get email_data "password" (PStr EmptyString);
        e_from_address ← get email_data "from_address" (PStr EmptyString);
        e_to_addresses ← get email_data "to_addresses" (PList []);
        let email_cfg := {|
          enabled := e_enabled;
          smtp_server := e_smtp_server;
          smtp_port := e_smtp_port;
          use_tls := e_use_tls;
          username := e_username;
          password := e_password;
          from_address := e_from_address;
          to_addresses := e_to_addresses
        |} in
        c_download_urls ← get data "download_urls" (PList []);
        c_download_dir ← get_Path data "download_dir" (BASE_DIR // "downloads");
        c_working_dir ← get_Path data "working_dir" (BASE_DIR // "downloads");
        c_reports_dir ← get_Path data "reports_dir" (BASE_DIR // "reports");
        c_logs_dir ← get_Path data "logs_dir" (BASE_DIR // "logs");
        c_rename_prefix ← get data "rename_prefix" (PStr EmptyString);
        c_rename_suffix ← get data "rename_suffix" (PStr EmptyString);
        c_sort_by_extension ← get data "sort_by_extension" (PBool true);
        ret {|
          download_urls := c_download_urls;
          download_dir := c_download_dir;
          working_dir := c_working_dir;
          reports_dir := c_reports_dir;
          logs_dir := c_logs_dir;
          rename_prefix := c_rename_prefix;
          rename_suffix := c_rename_suffix;
          sort_by_extension := c_sort_by_extension;
          email := email_cfg
        |}
    end.

End with_BASE_DIR.

End config.

(** ** automation_bot/notifier.py *)

Module notifier.

Record EmailNotifier : Type := { config : config.EmailConfig }.

Definition new_message : EmailMessage :=
  {| headers := []; content := EmptyString; attachments := [] |}.

(** [msg[name] = value]: a [str] of more than one line is refused; the
    header factory of the library decides on the rest. *)
Definition set_header (msg : EmailMessage) (name : string) (value : pyval)
    : M EmailMessage :=
  let refused := match value with
                 | PStr s => (1 <? Str.count_lines false s)%nat
                 | _ => false
                 end in
  if refused then raise ValueError
  else fun w =>
    match header_factory (lib w) name value with
    | Some e => (Raise e, w)
    | None => (Ok {| headers := headers msg ++ [(name, value)];
                     content := content msg;
                     attachments := attachments msg |}, w)
    end.

Fixpoint all_str (l : list pyval) : option (list string) :=
  match l with
  | [] => Some []
  | PStr s :: r => match all_str r with Some t => Some (s :: t) | None => None end
  | _ :: _ => None
  end.

(** [sep.join(v)] *)
Definition str_join (sep : string) (v : pyval) : result string :=
  match v with
  | PList l =>
      match all_str l with
      | Some t => Ok (Str.join sep t)
      | None => Raise TypeError
      end
  | PStr s => Ok (Str.join sep (Str.chars s))
  | PDict d => Ok (Str.join sep d.*1)
  | _ => Raise TypeError
  end.

Definition set_content (msg : EmailMessage) (body : string) : EmailMessage :=
  {| headers := headers msg; content := body; attachments := attachments msg |}.

Definition add_attachment (msg : EmailMessage) (data filename : string) : EmailMessage :=
  {| headers := headers msg; content := content msg;
     attachments := attachments msg ++ [(filename, data)] |}.

(** One exchange with the SMTP server. *)
Definition smtp (ev : net_event) : M unit :=
  fun w =>
    match smtp_reply (lib w) (wire w) ev with
    | Some e => (Raise e, add_wire ev w)
    | None => (Ok tt, add_wire ev w)
    end.

(** The guarded block of [send_notification]. *)
Definition smtp_session (cfg : config.EmailConfig) (msg : EmailMessage) : M unit :=
  logger_info "Connecting to SMTP server %s:%s"
              [config.smtp_server cfg; config.smtp_port cfg];;
  smtp (SmtpConnect (config.smtp_server cfg) (config.smtp_port cfg) 30);;
  with_exit
    ((if truthy (config.use_tls cfg) then smtp SmtpStartTls else ret tt);;
     (if truthy (config.username cfg) && truthy (config.password cfg)
      then smtp (SmtpLogin (config.username cfg) (config.password cfg))
      else ret tt);;
     smtp (SmtpSendMessage msg))
    (smtp SmtpQuit);;
  logger_info "Notification email sent successfully." [].

Definition send_notification (self : EmailNotifier) (subject body : string)
    (attachment : option Path) : M unit :=
  let cfg := config self in
  if negb (truthy (config.enabled cfg)) then
    logger_info "Email notifications are disabled. Skipping send." []
  else if negb (truthy (config.to_addresses cfg)) then
    logger_warning "Email enabled but no recipients configured. Skipping send." []
  else
    msg ← set_header new_message "Subject" (PStr subject);
    msg ← set_header msg "From" (config.from_address cfg);
    recipients ← lift (str_join ", " (config.to_addresses cfg));
    msg ← set_header msg "To" (PStr recipients);
    let msg := set_content msg body in
    msg ← match attachment with
          | Some a =>
              found ← os.exists_ a;
              if found then
                logger_info "Attaching file to email: %s" [PStr (str a)];;
                data ← os.read_bytes a;
                ret (add_attachment msg data (name a))
              else ret msg
          | None => ret msg
          end;
    try_except (smtp_session cfg msg) is_Exception
      (fun exc => logger_exception "Failed to send notification email: %s" [] exc).

End notifier.

(** ** The words of the specification

    Definitions that follow the specification rather than the sources;
    the theorems below compare them with the program. *)

Module spec.






(** Splitting a filename at its last dot; a name without a dot has an
    empty extension and is its own stem. *)
Definition split_at_last_dot (filename : string) : string * string :=
  let i := Str.rfind "." filename in
  if (0 <=? i)%Z
  then (Str.take (Z.to_nat i) filename, Str.drop (Z.to_nat i) filename)
  else (filename, EmptyString).

Definition new_name_by_last_dot (filename prefix suffix : string) : string :=
  let '(stem, ext) := split_at_last_dot filename in
  prefix +:+ stem +:+ suffix +:+ ext.

(** The last dot of the name is neither its first nor its last character. *)
Definition last_dot_inside (filename : string) : bool :=
  let i := Str.rfind "." filename in
  negb (i =? -1)%Z && negb (i =? 0)%Z && negb (i =? Str.len filename - 1)%Z.

(** A filename: a single path component. *)
Definition is_filename (s : string) : Prop :=
  Str.contains "/" s = false /\ s <> ".".


End spec.

(** ** Notions used by the statements *)

(** The oracles of the library are never changed by a statement. *)
Definition keeps_lib {A} (m : M A) : Prop :=
  forall w r w', m w = (r, w') -> lib w' = lib w.

(** A loop body that appends at most one result, chosen without regard
    to the list built so far, and never raises. *)
Definition appends {A B} (body : A -> list B -> M (list B))
    (R : library -> A -> B -> Prop) : Prop :=
  forall x w, exists o w',
    lib w' = lib w
    /\ (forall r, o = Some r -> R (lib w) x r)
    /\ forall acc, body x acc w = (Ok (acc ++ option_list o)%list, w').

(** The file name the Fetch stage derives from the path of a URL. *)
Definition filename_of (parsed_path : string) : string :=
  let n := name (pathlib.parse parsed_path) in
  if String.eqb n EmptyString then "downloaded_file" else n.

(** What [p.exists()] returns. *)
Definition present (w : world) (p : Path) : bool :=
  match os.resolve w p with
  | Ok k => match os.node_at (fs w) k with Some _ => true | None => false end
  | Raise _ => false
  end.















(** The last record of the log. *)
Definition last_record (w : world) : option log_record := last (log w).

(** ** The endings of the notification *)

Definition success_record : log_record :=
  LogRecord INFO "Notification email sent successfully." [] None.

Definition failure_record (e : exn) : log_record :=
  LogRecord ERROR "Failed to send notification email: %s" [] (Some e).


(** ** Example worlds *)

Module examples.

(** A library whose network is down and whose codecs accept anything. *)
Definition quiet_library : library := {|
  urlparse_path := fun _ => Raise ValueError;
  requests_get := fun _ _ => Raise RequestException;
  smtp_reply := fun _ _ => None;
  json_loads := fun _ => None;
  header_factory := fun _ _ => None;
  dir_st_size := 4096
|}.

(** A working directory with [reports/], [downloads/a.csv], the regular
    file [f.txt] and a settings file that is not UTF-8. *)
Definition disk : gmap (list string) node := list_to_map [
  (["reports"], Dir);
  (["downloads"], Dir);
  (["downloads"; "a.csv"], File "x,y");
  (["f.txt"], File "hello");
  (["config"], Dir);
  (["config"; "settings.json"], File (String (ascii_of_nat 255) EmptyString))
].

Definition world0 : world := {|
  fs := disk; cwd := []; buffers := ∅; log := []; wire := [];
  lib := quiet_library
|}.

Definition a_csv : Path := mkPath EmptyString ["downloads"; "a.csv"].
Definition under_a_file : Path := mkPath EmptyString ["f.txt"; "x"].
Definition missing_file : Path := mkPath EmptyString ["downloads"; "gone.txt"].

(** The current directory as the package directory. *)
Definition here : Path := mkPath EmptyString [].

(** A world whose settings file is well-formed and decodes to [doc]. *)
Definition world_with_document (doc : pyval) : world := {|
  fs := <[ ["config"; "settings.json"] := File "{}" ]> disk;
  cwd := []; buffers := ∅; log := []; wire := [];
  lib := {|
    urlparse_path := fun _ => Raise ValueError;
    requests_get := fun _ _ => Raise RequestException;
    smtp_reply := fun _ _ => None;
    json_loads := fun _ => Some doc;
    header_factory := fun _ _ => None;
    dir_st_size := 4096
  |}
|}.

(** A world whose SMTP server refuses the login. *)
Definition world_refusing_login : world := {|
  fs := disk; cwd := []; buffers := ∅; log := []; wire := [];
  lib := {|
    urlparse_path := fun _ => Raise ValueError;
    requests_get := fun _ _ => Raise RequestException;
    smtp_reply := fun _ ev => match ev with
                              | SmtpLogin _ _ => Some SMTPException
                              | _ => None
                              end;
    json_loads := fun _ => None;
    header_factory := fun _ _ => None;
    dir_st_size := 4096
  |}
|}.

Definition mail_on : config.EmailConfig := {|
  config.enabled := PBool true;
  config.smtp_server := PStr "smtp.example.com";
  config.smtp_port := PInt 587;
  config.use_tls := PBool true;
  config.username := PStr "bot";
  config.password := PStr "secret";
  config.from_address := PStr "bot@example.com";
  config.to_addresses := PList [PStr "ops@example.com"]
|}.


End examples.

(** ** Further notions used by the statements *)

(** A statement that leaves the world as it finds it. *)
Definition unchanged {A} (m : M A) : Prop :=
  forall w r w', m w = (r, w') -> w' = w.

(** A statement that keeps one component of the world. *)
Definition preserves {A X} (f : world -> X) (m : M A) : Prop :=
  forall w r w', m w = (r, w') -> f w' = f w.

(** The commands of an SMTP session after the connection, in order. *)
Definition session_plan (cfg : config.EmailConfig) (msg : EmailMessage)
    : list net_event :=
  ((if truthy (config.use_tls cfg) then [SmtpStartTls] else [])
   ++ (if truthy (config.username cfg) && truthy (config.password cfg)
       then [SmtpLogin (config.username cfg) (config.password cfg)] else [])
   ++ [SmtpSendMessage msg])%list.

(** What a notification may put on the network: nothing; a connection
    that fails; or a connection, the commands of the plan up to the
    first one that fails, and the closing [QUIT]. *)
Inductive session_trace (cfg : config.EmailConfig) (msg : EmailMessage)
    : list net_event -> Prop :=
  | trace_none : session_trace cfg msg []
  | trace_refused :
      session_trace cfg msg
        [SmtpConnect (config.smtp_server cfg) (config.smtp_port cfg) 30]
  | trace_closed issued :
      issued <> [] ->
      issued `prefix_of` session_plan cfg msg ->
      session_trace cfg msg
        (SmtpConnect (config.smtp_server cfg) (config.smtp_port cfg) 30
           :: issued ++ [SmtpQuit]).

(** The message [send_notification] composes. *)
Definition composed_message (cfg : config.EmailConfig) (subject body recipients : string)
    (attached : list (string * string)) : EmailMessage := {|
  headers := [("Subject", PStr subject);
              ("From", config.from_address cfg);
              ("To", PStr recipients)];
  content := body;
  attachments := attached
|}.

(** The attachment of the message: the file when the path exists. *)
Definition attached_file (w : world) (attachment : option Path)
    : list (string * string) :=
  match attachment with
  | Some a =>
      match (os.read_bytes a w).1 with
      | Ok data => if present w a then [(name a, data)] else []
      | Raise _ => []
      end
  | None => []
  end.

(** A header value that [msg[name] = value] does not refuse for its
    line breaks. *)
Definition single_line (v : pyval) : Prop :=
  match v with
  | PStr s => (1 <? Str.count_lines false s)%nat = false
  | _ => True
  end.

(** Whether [urlparse] accepts a URL. *)
Definition parses (l : library) (url : string) : bool :=
  match urlparse_path l url with
  | Ok _ => true
  | Raise _ => false
  end.

(** The fetch of a URL fails: the URL is not parsed, the request raises,
    or the status of the response is a client or server error. *)
Definition fetch_fails (w : world) (url : string) : Prop :=
  match urlparse_path (lib w) url with
  | Raise _ => True
  | Ok _ =>
      match requests_get (lib w) (wire w) url with
      | Raise _ => True
      | Ok (status, _) => (400 <= status < 600)%Z
      end
  end.

(** The warnings of the Rename and Sort stages for a missing file. *)
Definition rename_skip_record (p : Path) : log_record :=
  LogRecord WARNING "File not found, skipping rename: %s" [PStr (str p)] None.

Definition sort_skip_record (p : Path) : log_record :=
  LogRecord WARNING "File not found, skipping sort: %s" [PStr (str p)] None.

(** Where the Sort stage puts a file: the category directory of its
    extension, and the file under its own name in it. *)
Definition category_dir (self : file_manager.FileManager) (p : Path) : Path :=
  file_manager.base_dir self
  // file_manager.target_folder_of (file_manager.sort_config self) (pathlib.suffix p).

Definition sorted_path (self : file_manager.FileManager) (p : Path) : Path :=
  category_dir self p // name p.






(** ** logging

    The records of the loggers are kept in [log], whatever handlers are
    installed; the text that a file handler appends to its file is not
    part of the model. *)

Module logging.

(** [logging.FileHandler(filename, encoding="utf-8")]: the file at the
    lexically normalised absolute path is opened for appending, hence
    created when it is missing. *)
Definition FileHandler (filename : Path) : M unit :=
  fun w =>
    let k := os.abspath w filename in
    match os.walk (fs w) [] (removelast k) with
    | Raise e => (Raise e, w)
    | Ok _ =>
        match os.node_at (fs w) (removelast k), os.node_at (fs w) k with
        | Some (File _), _ => (Raise NotADirectoryError, w)
        | None, _ => (Raise FileNotFoundError, w)
        | Some Dir, Some Dir => (Raise IsADirectoryError, w)
        | Some Dir, Some (File _) => (Ok tt, w)
        | Some Dir, None => (Ok tt, set_fs (<[k := File EmptyString]> (fs w)) w)
        end
    end.

End logging.

(** ** task_automation_bot.py *)

Module task_automation_bot.

Definition setup_logging (logs_dir : Path) : M unit :=
  os.mkdir logs_dir;;
  let log_file := logs_dir // "automation_bot.log" in
  logging.FileHandler log_file.

(** The settings that the stages use as a list of strings and as
    strings, when they have these types. *)
Definition typed_settings (cfg : config.Config)
    : option (list string * string * string) :=
  match config.download_urls cfg, config.rename_prefix cfg, config.rename_suffix cfg with
  | PList l, PStr prefix, PStr suffix =>
      match notifier.all_str l with
      | Some urls => Some (urls, prefix, suffix)
      | None => None
      end
  | _, _, _ => None
  end.

Definition LF : string := String (ascii_of_nat 10) EmptyString.

Section run.

(** [Path(__file__).resolve().parent.parent] of [config.py] *)
Variable BASE_DIR : Path.

(** [datetime.utcnow().strftime("%Y%m%d_%H%M%S")] at the time of the report *)
Variable now_str : string.

(** The body of the [try] block for settings of other types (URLs that
    are not a list of strings, a prefix or a suffix that is not a
    string), which is not modelled. *)
Variable untyped_stages : config.Config -> M unit.

(** The body of the [try] block of [main]. *)
Definition stages (config : config.Config) (download_urls : list string)
    (rename_prefix rename_suffix : string) : M unit :=
  downloader ← file_downloader.__init__ (config.download_dir config);
  downloaded_files ← file_downloader.download_files downloader download_urls;
  logger_info "Downloaded %d files." [PInt (Z.of_nat (length downloaded_files))];;
  file_manager ← file_manager.__init__ (config.working_dir config)
                   (Some file_manager.FileSortConfig_default);
  renamed_files ← file_manager.rename_files file_manager downloaded_files
                    rename_prefix rename_suffix;
  logger_info "Renamed %d files." [PInt (Z.of_nat (length renamed_files))];;
  sorted_files ← (if truthy (config.sort_by_extension config)
                  then file_manager.sort_files_by_extension file_manager renamed_files
                  else ret renamed_files);
  logger_info "Sorted %d files." [PInt (Z.of_nat (length sorted_files))];;
  let report_name := "file_report_" +:+ now_str +:+ ".csv" in
  report_generator ← report_generator.__init__ (config.reports_dir config);
  report_path ← report_generator.generate_file_report report_generator
                  sorted_files report_name;
  let notifier := {| notifier.config := config.email config |} in
  let subject := "Task Automation Bot - File Processing Report" in
  let body :=
    "Task Automation Bot has completed processing." +:+ LF +:+ LF
    +:+ "Total URLs configured: " +:+ pretty (length download_urls) +:+ LF
    +:+ "Files downloaded: " +:+ pretty (length downloaded_files) +:+ LF
    +:+ "Files renamed: " +:+ pretty (length renamed_files) +:+ LF
    +:+ "Files sorted: " +:+ pretty (length sorted_files) +:+ LF
    +:+ "Report path: " +:+ str report_path +:+ LF in
  notifier.send_notification notifier subject body (Some report_path);;
  logger_info "Task Automation Bot completed successfully." [].

Definition main : M unit :=
  config ← config.load_config BASE_DIR None;
  setup_logging (config.logs_dir config);;
  logger_info "Starting Task Automation Bot" [];;
  try_except
    (match typed_settings config with
     | Some (download_urls, rename_prefix, rename_suffix) =>
         stages config download_urls rename_prefix rename_suffix
     | None => untyped_stages config
     end)
    is_Exception
    (fun exc =>
       logger_exception "Task Automation Bot encountered a fatal error: %s" [] exc).

End run.

End task_automation_bot.

(** The requests of a batch of downloads. *)
Definition requests_of (l : library) (urls : list string) : list net_event :=
  List.map (fun url => HttpGet url 30) (List.filter (parses l) urls).

(** The network traffic of a whole run: nothing, or the requests of the
    downloads followed by what the notification sends, which is nothing
    unless email is enabled and has recipients. *)
Definition run_traffic (cfg : config.EmailConfig) (l : library) (urls : list string)
    (traffic : list net_event) : Prop :=
  traffic = []
  \/ exists evs msg,
       traffic = (requests_of l urls ++ evs)%list
       /\ session_trace cfg msg evs
       /\ (evs <> [] ->
           truthy (config.enabled cfg) = true
           /\ truthy (config.to_addresses cfg) = true).

(** A statement whose only traffic is that of a notification. *)
Definition notifies {A} (cfg : config.EmailConfig) (m : M A) : Prop :=
  forall w r w', m w = (r, w') ->
    exists evs msg,
      wire w' = (wire w ++ evs)%list
      /\ session_trace cfg msg evs
      /\ (evs <> [] ->
          truthy (config.enabled cfg) = true
          /\ truthy (config.to_addresses cfg) = true).

(** A statement whose traffic is that of a run. *)
Definition fetches_and_notifies {A} (cfg : config.EmailConfig) (urls : list string)
    (m : M A) : Prop :=
  forall w r w', m w = (r, w') ->
    exists traffic,
      wire w' = (wire w ++ traffic)%list
      /\ run_traffic cfg (lib w) urls traffic.

(** The last records of a run. *)
Definition completion_record : log_record :=
  LogRecord INFO "Task Automation Bot completed successfully." [] None.

Definition fatal_record (e : exn) : log_record :=
  LogRecord ERROR "Task Automation Bot encountered a fatal error: %s" [] (Some e).

(** A statement that, when it returns, has logged [r] last. *)
Definition closes_with (r : log_record) (m : M unit) : Prop :=
  forall w w', m w = (Ok tt, w') -> last_record w' = Some r.

(** ** Further example worlds *)

Module more_examples.

(** A world whose settings file is text that the JSON decoder rejects. *)
Definition world_with_malformed_json : world := {|
  fs := <[ ["config"; "settings.json"] := File "{oops" ]> examples.disk;
  cwd := []; buffers := ∅; log := []; wire := [];
  lib := examples.quiet_library
|}.

(** A world whose network serves one document for every URL. *)
Definition world_serving (status : Z) (body : string) : world := {|
  fs := examples.disk; cwd := []; buffers := ∅; log := []; wire := [];
  lib := {|
    urlparse_path := fun _ => Ok "/files/a.csv";
    requests_get := fun _ _ => Ok (status, body);
    smtp_reply := fun _ _ => None;
    json_loads := fun _ => None;
    header_factory := fun _ _ => None;
    dir_st_size := 4096
  |}
|}.

Definition downloads : file_downloader.FileDownloader :=
  {| file_downloader.download_dir := mkPath EmptyString ["downloads"] |}.

(** A manager of the working directory with the default table. *)
Definition manager : file_manager.FileManager :=
  {| file_manager.base_dir := examples.here;
     file_manager.sort_config := file_manager.FileSortConfig_default |}.




(** A disk where a directory stands at the destination of [a.csv]. *)
Definition occupied_disk : gmap (list string) node := list_to_map [
  (["inbox"], Dir);
  (["inbox"; "a.csv"], File "x,y");
  (["data"], Dir);
  (["data"; "a.csv"], Dir)
].

Definition occupied_world : world := {|
  fs := occupied_disk; cwd := []; buffers := ∅; log := []; wire := [];
  lib := examples.quiet_library
|}.

Definition inbox_a_csv : Path := mkPath EmptyString ["inbox"; "a.csv"].

End more_examples.

(** * Theorems *)

(** * Strings *)

Lemma append_cons c s t : String c s +:+ t = String c (s +:+ t).
Proof. reflexivity. Qed.

Lemma append_empty_l t : EmptyString +:+ t = t.
Proof. reflexivity. Qed.

Lemma append_empty_r s : s +:+ EmptyString = s.
Proof. induction s as [|c s IH]; [done|]. by rewrite append_cons, IH. Qed.

Lemma append_assoc s t u : (s +:+ t) +:+ u = s +:+ (t +:+ u).
Proof. induction s as [|c s IH]; [done|]. by rewrite !append_cons, IH. Qed.

Lemma take_drop_str n s : Str.take n s +:+ Str.drop n s = s.
Proof.
  revert s. induction n as [|n IH]; intros [|c r]; simpl; try reflexivity.
  by rewrite append_cons, IH.
Qed.




Lemma rfind_bounds c s : (-1 <= Str.rfind c s < Str.len s)%Z.
Proof.
  unfold Str.len. induction s as [|x r IH]; simpl String.length; simpl Str.rfind; [lia|].
  destruct (0 <=? Str.rfind c r)%Z eqn:E; [apply Z.leb_le in E; lia|].
  destruct (Ascii.eqb x c); lia.
Qed.

Lemma rfind_absent c s : Str.rfind c s = (-1)%Z -> Str.contains c s = false.
Proof.
  induction s as [|x r IH]; simpl; [done|].
  pose proof (rfind_bounds c r) as Hb.
  destruct (0 <=? Str.rfind c r)%Z eqn:E; [apply Z.leb_le in E; lia|].
  apply Z.leb_gt in E. destruct (Ascii.eqb x c); [lia|].
  intros _. apply IH. lia.
Qed.

(** From the position [rfind] returns on, the string is the character
    followed by text without it. *)
Lemma drop_rfind c s :
  (0 <= Str.rfind c s)%Z ->
  exists rest, Str.drop (Z.to_nat (Str.rfind c s)) s = String c rest
               /\ Str.contains c rest = false.
Proof.
  induction s as [|x r IH]; simpl Str.rfind; [lia|].
  pose proof (rfind_bounds c r) as Hb.
  destruct (0 <=? Str.rfind c r)%Z eqn:E.
  - apply Z.leb_le in E. intros _. destruct (IH E) as (rest & H1 & H2).
    exists rest. split; [|done].
    replace (Z.to_nat (Str.rfind c r + 1)) with (S (Z.to_nat (Str.rfind c r))) by lia.
    exact H1.
  - apply Z.leb_gt in E. destruct (Ascii.eqb_spec x c) as [->|]; [|lia].
    intros _. exists r. split; [done|]. apply rfind_absent. lia.
Qed.

Lemma split_no_sep sep s : Str.contains sep s = false -> Str.split sep s = [s].
Proof.
  induction s as [|x r IH]; simpl; [done|].
  intros [H1 H2]%orb_false_elim. rewrite H1, (IH H2). done.
Qed.

(** * Classification *)






(** * File names *)

Lemma splitroot_no_slash s :
  Str.contains "/" s = false -> pathlib.splitroot s = (EmptyString, s).
Proof.
  destruct s as [|x r]; [done|]. simpl.
  intros [H1 _]%orb_false_elim.
  destruct x as [[] [] [] [] [] [] [] []]; first [reflexivity | discriminate H1].
Qed.

Lemma parse_filename n : spec.is_filename n -> name (pathlib.parse n) = n.
Proof.
  intros [H1 H2]. unfold pathlib.parse.
  rewrite (splitroot_no_slash _ H1), (split_no_sep _ _ H1).
  unfold name. simpl. unfold pathlib.kept_component.
  destruct (String.eqb_spec n EmptyString) as [->|]; [done|].
  destruct (String.eqb_spec n ".") as [->|]; done.
Qed.

Lemma last_dot_inside_has_suffix n :
  spec.last_dot_inside n = pathlib.has_suffix n.
Proof.
  unfold spec.last_dot_inside, pathlib.has_suffix.
  pose proof (rfind_bounds "." n) as Hb.
  destruct (Z.eqb_spec (Str.rfind "." n) (-1)), (Z.eqb_spec (Str.rfind "." n) 0),
    (Z.eqb_spec (Str.rfind "." n) (Str.len n - 1)),
    (Z.ltb_spec 0 (Str.rfind "." n)),
    (Z.ltb_spec (Str.rfind "." n) (Str.len n - 1)); simpl; try reflexivity; lia.
Qed.

(** C3 (amended). The new name is prefix + stem + suffix + extension,
    where the filename is split at its last dot when that dot is neither
    its first nor its last character, and otherwise the extension is
    empty and the stem is the whole name; the extension is a verbatim
    tail of the filename. *)
Theorem build_new_name_splits_inside_dot (filename prefix suffix : string) :
  spec.is_filename filename ->
  file_manager._build_new_name filename prefix suffix
  = (if spec.last_dot_inside filename
     then spec.new_name_by_last_dot filename prefix suffix
     else prefix +:+ filename +:+ suffix)
  /\ exists stem ext,
       filename = stem +:+ ext
       /\ file_manager._build_new_name filename prefix suffix
          = prefix +:+ stem +:+ suffix +:+ ext
       /\ (ext = EmptyString
           \/ exists rest, ext = String "." rest /\ Str.contains "." rest = false).
Proof.
  intros Hn. unfold file_manager._build_new_name, pathlib.stem, pathlib.suffix.
  rewrite (parse_filename _ Hn), last_dot_inside_has_suffix.
  unfold spec.new_name_by_last_dot, spec.split_at_last_dot.
  destruct (pathlib.has_suffix filename) eqn:E.
  - unfold pathlib.has_suffix in E. apply andb_prop in E as [E1 E2].
    apply Z.ltb_lt in E1.
    assert (0 <= Str.rfind "." filename)%Z as H0 by lia.
    rewrite (proj2 (Z.leb_le _ _) H0). split; [done|].
    eexists _, _. split; [symmetry; apply take_drop_str|]. split; [done|].
    right. by apply drop_rfind.
  - split; [by rewrite append_empty_r|].
    exists filename, EmptyString. rewrite !append_empty_r. auto.
Qed.

Lemma build_new_name_splits_inside_dot_witness :
  file_manager._build_new_name "report.pdf" "2025_" "_final" = "2025_report_final.pdf".
Proof.
  refine (eq_trans (proj1 (build_new_name_splits_inside_dot
                             "report.pdf" "2025_" "_final" _)) _).
  - split; [reflexivity | discriminate].
  - reflexivity.
Defined.

(** C3 (as stated) fails on a name whose only dot is the leading one. *)
Lemma build_new_name_leading_dot :
  spec.is_filename ".bashrc"
  /\ file_manager._build_new_name ".bashrc" EmptyString "_v2" = ".bashrc_v2"
  /\ spec.new_name_by_last_dot ".bashrc" EmptyString "_v2" = "_v2.bashrc"
  /\ file_manager._build_new_name ".bashrc" EmptyString "_v2"
     <> spec.new_name_by_last_dot ".bashrc" EmptyString "_v2".
Proof.
  split; [split; [reflexivity | discriminate]|].
  split; [reflexivity|]. split; [reflexivity|]. discriminate.
Qed.

(** * The monad *)


(** ** The library oracles never change *)

Lemma keeps_lib_ret {A} (a : A) : keeps_lib (ret a).
Proof. intros w r w' [= _ <-]. done. Qed.

Lemma keeps_lib_raise {A} e : keeps_lib (@raise A e).
Proof. intros w r w' [= _ <-]. done. Qed.

Lemma keeps_lib_lift {A} (x : result A) : keeps_lib (lift x).
Proof. intros w r w' [= _ <-]. done. Qed.

Lemma keeps_lib_bind {A B} (m : M A) (f : A -> M B) :
  keeps_lib m -> (forall a, keeps_lib (f a)) -> keeps_lib (bind m f).
Proof.
  intros Hm Hf w r w'. unfold bind.
  destruct (m w) as [[a|e] w1] eqn:E; intros H.
  - rewrite (Hf _ _ _ _ H). eauto.
  - injection H as _ <-. eauto.
Qed.

Lemma keeps_lib_try_except {A} (m : M A) c h :
  keeps_lib m -> (forall e, keeps_lib (h e)) -> keeps_lib (try_except m c h).
Proof.
  intros Hm Hh w r w'. unfold try_except.
  destruct (m w) as [[a|e] w1] eqn:E; intros H.
  - injection H as _ <-. eauto.
  - destruct (c e).
    + rewrite (Hh _ _ _ _ H). eauto.
    + injection H as _ <-. eauto.
Qed.

Lemma keeps_lib_with_exit {A} (m : M A) c :
  keeps_lib m -> keeps_lib c -> keeps_lib (with_exit m c).
Proof.
  intros Hm Hc w r w'. unfold with_exit.
  destruct (m w) as [a w1] eqn:E. destruct (c w1) as [[u|e] w2] eqn:E2;
    intros [= _ <-]; rewrite (Hc _ _ _ E2); eauto.
Qed.

Lemma keeps_lib_for_in {A S} (items : list A) (body : A -> S -> M S) s :
  (forall x s, keeps_lib (body x s)) -> keeps_lib (for_in items body s).
Proof.
  intros Hb. revert s. induction items as [|x items IH]; intros s; simpl.
  - apply keeps_lib_ret.
  - apply keeps_lib_bind; auto.
Qed.

Ltac keeps_prim :=
  let w := fresh "w" in let r := fresh "r" in let w' := fresh "w'" in
  let H := fresh "H" in
  intros w r w' H; cbv beta delta [set_fs set_buffers add_log add_wire] in H;
  repeat case_match; simplify_eq; reflexivity.

Lemma keeps_lib_logger_info f a : keeps_lib (logger_info f a).
Proof. unfold logger_info. keeps_prim. Qed.
Lemma keeps_lib_logger_warning f a : keeps_lib (logger_warning f a).
Proof. unfold logger_warning. keeps_prim. Qed.
Lemma keeps_lib_logger_exception f a e : keeps_lib (logger_exception f a e).
Proof. unfold logger_exception. keeps_prim. Qed.
Lemma keeps_lib_lookup_node p : keeps_lib (os.lookup_node p).
Proof. unfold os.lookup_node. keeps_prim. Qed.
Lemma keeps_lib_stat p : keeps_lib (os.stat p).
Proof. unfold os.stat, os.lookup_node. keeps_prim. Qed.
Lemma keeps_lib_rename p q : keeps_lib (os.rename p q).
Proof. unfold os.rename. keeps_prim. Qed.
Lemma keeps_lib_mkdir p : keeps_lib (os.mkdir p).
Proof. unfold os.mkdir. keeps_prim. Qed.
Lemma keeps_lib_open_w p : keeps_lib (os.open_w p).
Proof. unfold os.open_w. keeps_prim. Qed.
Lemma keeps_lib_write k d : keeps_lib (os.write k d).
Proof. unfold os.write. keeps_prim. Qed.
Lemma keeps_lib_close k : keeps_lib (os.close k).
Proof. unfold os.close. keeps_prim. Qed.
Lemma keeps_lib_read_bytes p : keeps_lib (os.read_bytes p).
Proof. unfold os.read_bytes, os.lookup_node. keeps_prim. Qed.
Lemma keeps_lib_unlink p : keeps_lib (os.unlink p).
Proof. unfold os.unlink. keeps_prim. Qed.
Lemma keeps_lib_samefile p q : keeps_lib (shutil._samefile p q).
Proof. unfold shutil._samefile. keeps_prim. Qed.
Lemma keeps_lib_destinsrc p q : keeps_lib (shutil._destinsrc p q).
Proof. unfold shutil._destinsrc. keeps_prim. Qed.
Lemma keeps_lib_copytree_rmtree p q : keeps_lib (shutil.copytree_rmtree p q).
Proof. unfold shutil.copytree_rmtree. keeps_prim. Qed.
Lemma keeps_lib_urlparse u : keeps_lib (file_downloader.urlparse_path_of u).
Proof. unfold file_downloader.urlparse_path_of. keeps_prim. Qed.
Lemma keeps_lib_requests_get u t : keeps_lib (file_downloader.requests_get_ u t).
Proof. unfold file_downloader.requests_get_. keeps_prim. Qed.

Create HintDb keeps.
#[local] Hint Resolve keeps_lib_ret keeps_lib_raise keeps_lib_lift
  keeps_lib_logger_info keeps_lib_logger_warning keeps_lib_logger_exception
  keeps_lib_lookup_node keeps_lib_stat keeps_lib_rename keeps_lib_mkdir
  keeps_lib_open_w keeps_lib_write keeps_lib_close keeps_lib_read_bytes
  keeps_lib_unlink keeps_lib_samefile keeps_lib_destinsrc
  keeps_lib_copytree_rmtree keeps_lib_urlparse keeps_lib_requests_get : keeps.

Ltac keeps :=
  repeat first
    [ lazymatch goal with |- keeps_lib _ => fail | |- _ => intro end
    | solve [auto with keeps]
    | lazymatch goal with
      | |- keeps_lib (bind _ _) => apply keeps_lib_bind
      | |- keeps_lib (try_except _ _ _) => apply keeps_lib_try_except
      | |- keeps_lib (with_exit _ _) => apply keeps_lib_with_exit
      | |- keeps_lib (for_in _ _ _) => apply keeps_lib_for_in
      | |- keeps_lib (if ?b then _ else _) => destruct b
      | |- keeps_lib (match ?o with _ => _ end) => destruct o
      end ].

Lemma keeps_lib_exists p : keeps_lib (os.exists_ p).
Proof. unfold os.exists_. keeps. Qed.
Lemma keeps_lib_isdir p : keeps_lib (os.isdir p).
Proof. unfold os.isdir. keeps. Qed.
#[local] Hint Resolve keeps_lib_exists keeps_lib_isdir : keeps.
Lemma keeps_lib_with_open_w {A} p (body : list string -> M A) :
  (forall k, keeps_lib (body k)) -> keeps_lib (os.with_open_w p body).
Proof. intros H. unfold os.with_open_w. keeps. Qed.
#[local] Hint Resolve keeps_lib_with_open_w : keeps.
Lemma keeps_lib_copy2_unlink p q : keeps_lib (shutil.copy2_unlink p q).
Proof. unfold shutil.copy2_unlink. keeps. Qed.
#[local] Hint Resolve keeps_lib_copy2_unlink : keeps.
Lemma keeps_lib_move p q : keeps_lib (shutil.move p q).
Proof. unfold shutil.move. keeps. Qed.
#[local] Hint Resolve keeps_lib_move : keeps.

(** * The pipeline stages *)



Ltac logs :=
  cbv beta iota delta [logger_info logger_warning logger_exception ret raise lift].





Lemma keeps_lib_download_single self url :
  keeps_lib (file_downloader._download_single self url).
Proof.
  unfold file_downloader._download_single, file_downloader.raise_for_status. keeps.
Qed.

Lemma download_single_result self url w p w' :
  file_downloader._download_single self url w = (Ok (Some p), w') ->
  exists parsed_path,
    urlparse_path (lib w) url = Ok parsed_path
    /\ p = file_downloader.download_dir self // filename_of parsed_path.
Proof.
  unfold file_downloader._download_single, bind. logs.
  unfold file_downloader.urlparse_path_of. cbn [lib add_log].
  destruct (urlparse_path (lib w) url) as [pp|e]; [|done].
  destruct (file_downloader.requests_get_ url 30 _) as [[resp|e] w1]; [|done].
  destruct (file_downloader.raise_for_status resp w1) as [[[]|e] w2]; [|done].
  destruct (os.with_open_w _ _ w2) as [[[]|e] w3]; [|done].
  intros [= <- _]. exists pp. done.
Qed.

Lemma download_one_appends self :
  appends (file_downloader.download_one self)
    (fun l url q =>
       exists parsed_path,
         urlparse_path l url = Ok parsed_path
         /\ q = file_downloader.download_dir self // filename_of parsed_path).
Proof.
  intros url w. unfold file_downloader.download_one, try_except, bind.
  destruct (file_downloader._download_single self url w) as [[[p|]|e] w1] eqn:E1.
  - exists (Some p), w1. pose proof (download_single_result _ _ _ _ _ E1) as HR.
    split; [apply (keeps_lib_download_single _ _ _ _ _ E1)|].
    split; [by intros r [= <-]|done].
  - exists None, w1. split; [apply (keeps_lib_download_single _ _ _ _ _ E1)|].
    split; [done|]. intros acc. by rewrite app_nil_r.
  - logs. simpl. eexists None, _. split; [|split; [done|]].
    2: { intros acc. rewrite app_nil_r. reflexivity. }
    pose proof (keeps_lib_download_single _ _ _ _ _ E1). cbn [lib add_log]. done.
Qed.


(** * Renaming with an empty pattern *)

Lemma walk_raises f cur comps e :
  os.walk f cur comps = Raise e -> os.ignore_error e = true.
Proof.
  revert cur. induction comps as [|c rest IH]; intros cur; simpl; [done|].
  destruct (os.node_at f cur) as [[|]|]; eauto; by intros [= <-].
Qed.

Lemma exists_present p w : os.exists_ p w = (Ok (present w p), w).
Proof.
  unfold os.exists_, try_except, bind, os.stat, os.lookup_node, present, os.resolve.
  destruct (os.walk (fs w) (os.start w p) (pathlib.tail p)) as [k|e] eqn:E.
  - destruct (os.node_at (fs w) k) as [[|]|]; reflexivity.
  - by rewrite (walk_raises _ _ _ _ E).
Qed.



Lemma valid_name_is_filename n : valid_name n = true -> spec.is_filename n.
Proof.
  unfold valid_name. intros [[_ H2]%andb_prop H3]%andb_prop. split.
  - by destruct (Str.contains "/" n).
  - intros ->. done.
Qed.






(** * The report *)
















(** * Renaming: an instance *)


(** * Loading the configuration *)

Lemma exists_true_present p w : (os.exists_ p w).1 = Ok true -> present w p = true.
Proof. rewrite exists_present. simpl. by intros [= ->]. Qed.

Lemma load_config_missing BASE_DIR path w :
  present w path = false ->
  config.load_config BASE_DIR (Some path) w = (Ok (config.default BASE_DIR), w).
Proof.
  intros Hp. unfold config.load_config, bind. by rewrite exists_present, Hp.
Qed.

Lemma load_config_malformed_json BASE_DIR path w raw :
  present w path = true ->
  os.read_bytes path w = (Ok raw, w) ->
  codecs.utf8_valid raw = true ->
  json_loads (lib w) raw = None ->
  config.load_config BASE_DIR (Some path) w = (Ok (config.default BASE_DIR), w).
Proof.
  intros Hp Hr Hv Hj.
  unfold config.load_config, bind, try_except, config.json_load, bind.
  rewrite exists_present, Hp. cbv beta iota delta [negb].
  rewrite Hr. cbv beta iota. by rewrite Hv, Hj.
Qed.

Lemma load_config_undecodable BASE_DIR path w raw :
  present w path = true ->
  os.read_bytes path w = (Ok raw, w) ->
  codecs.utf8_valid raw = false ->
  config.load_config BASE_DIR (Some path) w = (Raise UnicodeDecodeError, w).
Proof.
  intros Hp Hr Hv.
  unfold config.load_config, bind, try_except, config.json_load, bind.
  rewrite exists_present, Hp. cbv beta iota delta [negb].
  rewrite Hr. cbv beta iota. by rewrite Hv.
Qed.

Lemma load_config_not_an_object BASE_DIR path w v :
  present w path = true ->
  config.json_load path w = (Ok v, w) ->
  (forall d, v <> PDict d) ->
  config.load_config BASE_DIR (Some path) w = (Raise AttributeError, w).
Proof.
  intros Hp Hj Hv. unfold config.load_config, bind, try_except.
  rewrite exists_present, Hp. cbv beta iota delta [negb].
  rewrite Hj. cbv beta iota delta [ret].
  destruct v; try reflexivity. by destruct (Hv d).
Qed.

(** C6 (the defect). A settings file that is not valid UTF-8 is neither
    missing nor decoded: loading the configuration raises
    [UnicodeDecodeError] instead of returning the defaults. *)
Theorem load_config_raises_on_non_utf8_settings :
  present examples.world0 (examples.here // "config" // "settings.json") = true
  /\ os.read_bytes (examples.here // "config" // "settings.json") examples.world0
     = (Ok (String (ascii_of_nat 255) EmptyString), examples.world0)
  /\ config.load_config examples.here None examples.world0
     = (Raise UnicodeDecodeError, examples.world0).
Proof.
  split; [vm_compute; reflexivity|]. split; [vm_compute; reflexivity|].
  apply (load_config_undecodable examples.here
           (examples.here // "config" // "settings.json") examples.world0
           (String (ascii_of_nat 255) EmptyString));
    vm_compute; reflexivity.
Qed.




(** * The notification *)

Lemma set_header_world msg n v w r w' :
  notifier.set_header msg n v w = (r, w') -> w' = w.
Proof.
  unfold notifier.set_header, raise. repeat case_match; by intros [= _ <-].
Qed.

Lemma read_bytes_world p w r w' : os.read_bytes p w = (r, w') -> w' = w.
Proof.
  unfold os.read_bytes. repeat case_match; by intros [= _ <-].
Qed.

Lemma last_record_add_log r w : last_record (add_log r w) = Some r.
Proof. unfold last_record. cbn [log add_log]. apply last_snoc. Qed.



(** C8. When email is disabled or there is no recipient, the
    notification issues no command on the network: it appends one log
    record, without an exception, and returns. *)
Theorem notification_disabled_is_noop
    self (subject body : string) (attachment : option Path) (w : world) :
  truthy (config.enabled (notifier.config self)) = false
  \/ truthy (config.to_addresses (notifier.config self)) = false ->
  exists r,
    notifier.send_notification self subject body attachment w = (Ok tt, add_log r w)
    /\ exc_info r = None
    /\ wire (add_log r w) = wire w
    /\ fs (add_log r w) = fs w.
Proof.
  intros H. unfold notifier.send_notification.
  destruct (truthy (config.enabled (notifier.config self))) eqn:E1; simpl.
  - destruct H as [H|H]; [done|]. rewrite H. simpl.
    eexists. split; [reflexivity|]. done.
  - eexists. split; [reflexivity|]. done.
Qed.

Lemma notification_disabled_is_noop_witness :
  exists r,
    notifier.send_notification
      {| notifier.config := config.EmailConfig_default |}
      "subject" "body" (Some examples.a_csv) examples.world_refusing_login
    = (Ok tt, add_log r examples.world_refusing_login)
    /\ exc_info r = None
    /\ wire (add_log r examples.world_refusing_login) = wire examples.world_refusing_login
    /\ fs (add_log r examples.world_refusing_login) = fs examples.world_refusing_login.
Proof.
  apply notification_disabled_is_noop. left. reflexivity.
Defined.





Lemma refused_login_is_logged :
  let run := notifier.send_notification {| notifier.config := examples.mail_on |}
               "subject" "body" (Some examples.a_csv) examples.world_refusing_login in
  run.1 = Ok tt
  /\ last_record run.2 = Some (failure_record SMTPException)
  /\ wire run.2 = [SmtpConnect (PStr "smtp.example.com") (PInt 587) 30;
                   SmtpStartTls;
                   SmtpLogin (PStr "bot") (PStr "secret");
                   SmtpQuit].
Proof. repeat split; vm_compute; reflexivity. Qed.

(** * Further properties: loading the configuration *)

Lemma unchanged_ret {A} (a : A) : unchanged (ret a).
Proof. by intros w r w' [= _ <-]. Qed.

Lemma unchanged_raise {A} e : unchanged (@raise A e).
Proof. by intros w r w' [= _ <-]. Qed.

Lemma unchanged_lift {A} (x : result A) : unchanged (lift x).
Proof. by intros w r w' [= _ <-]. Qed.

Lemma unchanged_bind {A B} (m : M A) (f : A -> M B) :
  unchanged m -> (forall a, unchanged (f a)) -> unchanged (bind m f).
Proof.
  intros Hm Hf w r w'. unfold bind.
  destruct (m w) as [[a|e] w1] eqn:E; intros H.
  - rewrite (Hf _ _ _ _ H). eauto.
  - injection H as _ <-. eauto.
Qed.

Lemma unchanged_try_except {A} (m : M A) c h :
  unchanged m -> (forall e, unchanged (h e)) -> unchanged (try_except m c h).
Proof.
  intros Hm Hh w r w'. unfold try_except.
  destruct (m w) as [[a|e] w1] eqn:E; intros H.
  - injection H as _ <-. eauto.
  - destruct (c e).
    + rewrite (Hh _ _ _ _ H). eauto.
    + injection H as _ <-. eauto.
Qed.

Lemma unchanged_exists p : unchanged (os.exists_ p).
Proof. intros w r w'. rewrite exists_present. by intros [= _ <-]. Qed.

Lemma unchanged_read_bytes p : unchanged (os.read_bytes p).
Proof. intros w r w' H. by apply read_bytes_world in H. Qed.

Lemma unchanged_get obj key dflt : unchanged (config.get obj key dflt).
Proof. unfold config.get. destruct obj; auto using unchanged_ret, unchanged_raise. Qed.

Lemma unchanged_get_Path obj key dflt : unchanged (config.get_Path obj key dflt).
Proof.
  unfold config.get_Path. repeat case_match; auto using unchanged_ret, unchanged_raise.
Qed.

Lemma unchanged_json_load p : unchanged (config.json_load p).
Proof.
  unfold config.json_load. apply unchanged_bind; [apply unchanged_read_bytes|].
  intros raw. destruct (codecs.utf8_valid raw); [|apply unchanged_raise].
  intros w r w'. by destruct (json_loads (lib w) raw); intros [= _ <-].
Qed.

Ltac unchanged :=
  repeat first
    [ lazymatch goal with |- unchanged _ => fail | |- _ => intro end
    | solve [auto using unchanged_ret, unchanged_raise, unchanged_lift,
               unchanged_exists, unchanged_read_bytes, unchanged_get,
               unchanged_get_Path, unchanged_json_load]
    | lazymatch goal with
      | |- unchanged (bind _ _) => apply unchanged_bind
      | |- unchanged (try_except _ _ _) => apply unchanged_try_except
      | |- unchanged (if ?b then _ else _) => destruct b
      | |- unchanged (match ?o with _ => _ end) => destruct o
      end ].

Lemma unchanged_load_config BASE_DIR path :
  unchanged (config.load_config BASE_DIR path).
Proof. unfold config.load_config. unchanged. Qed.

(** X1. Loading the configuration only reads: whatever the outcome, a
    value or an exception, the file system, the log and the network
    trace are left as they were. *)
Theorem load_config_only_reads BASE_DIR (path : option Path) (w : world) :
  (config.load_config BASE_DIR path w).2 = w.
Proof.
  destruct (config.load_config BASE_DIR path w) as [r w'] eqn:E.
  exact (unchanged_load_config _ _ _ _ _ E).
Qed.

(** X2. The configuration falls back to the complete defaults when the
    settings file does not exist, and when the file is readable UTF-8
    text that the JSON decoder rejects. *)
Theorem load_config_falls_back_to_defaults BASE_DIR (path : Path) (w : world) :
  ((os.exists_ path w).1 = Ok false ->
   config.load_config BASE_DIR (Some path) w = (Ok (config.default BASE_DIR), w))
  /\ (forall raw,
        (os.exists_ path w).1 = Ok true ->
        (os.read_bytes path w).1 = Ok raw ->
        codecs.utf8_valid raw = true ->
        json_loads (lib w) raw = None ->
        config.load_config BASE_DIR (Some path) w = (Ok (config.default BASE_DIR), w)).
Proof.
  split.
  - rewrite exists_present. simpl. intros [= Hp]. by apply load_config_missing.
  - intros raw He Hr Hv Hj. apply exists_true_present in He.
    apply (load_config_malformed_json BASE_DIR path w raw He); [|done|done].
    destruct (os.read_bytes path w) as [r w'] eqn:E.
    rewrite (read_bytes_world _ _ _ _ E) in *. simpl in Hr. by subst.
Qed.

Lemma load_config_falls_back_to_defaults_witness :
  config.load_config examples.here (Some examples.missing_file) examples.world0
  = (Ok (config.default examples.here), examples.world0)
  /\ config.load_config examples.here
       (Some (examples.here // "config" // "settings.json"))
       more_examples.world_with_malformed_json
     = (Ok (config.default examples.here), more_examples.world_with_malformed_json).
Proof.
  split.
  - apply (proj1 (load_config_falls_back_to_defaults examples.here
                    examples.missing_file examples.world0)).
    vm_compute. reflexivity.
  - apply (proj2 (load_config_falls_back_to_defaults examples.here
                    (examples.here // "config" // "settings.json")
                    more_examples.world_with_malformed_json) "{oops");
      vm_compute; reflexivity.
Defined.

(** X3. A settings file that decodes to a JSON value other than an
    object is not replaced by the defaults: the loading raises
    [AttributeError]. *)
Theorem load_config_requires_an_object BASE_DIR (path : Path) (w : world) (v : pyval) :
  (os.exists_ path w).1 = Ok true ->
  (config.json_load path w).1 = Ok v ->
  (forall d, v <> PDict d) ->
  config.load_config BASE_DIR (Some path) w = (Raise AttributeError, w).
Proof.
  intros He Hj Hv. apply exists_true_present in He.
  apply (load_config_not_an_object BASE_DIR path w v He); [|done].
  destruct (config.json_load path w) as [r w'] eqn:E.
  rewrite (unchanged_json_load _ _ _ _ E) in *. simpl in Hj. by subst.
Qed.

Lemma load_config_requires_an_object_witness :
  config.load_config examples.here
    (Some (examples.here // "config" // "settings.json"))
    (examples.world_with_document (PList [PInt 1; PInt 2]))
  = (Raise AttributeError, examples.world_with_document (PList [PInt 1; PInt 2])).
Proof.
  apply (load_config_requires_an_object examples.here _ _ (PList [PInt 1; PInt 2])).
  - vm_compute. reflexivity.
  - vm_compute. reflexivity.
  - intros d. discriminate.
Defined.

(** * Further properties: the notification *)

Lemma set_header_result msg n v w m w' :
  notifier.set_header msg n v w = (Ok m, w') ->
  m = {| headers := headers msg ++ [(n, v)];
         content := content msg;
         attachments := attachments msg |}.
Proof.
  unfold notifier.set_header, raise. repeat case_match; by intros [= <- _].
Qed.

Ltac session_leaf :=
  cbn [wire add_wire add_log];
  rewrite <- ?app_assoc; cbn [app];
  eexists; split; [reflexivity|]; split; [|discriminate];
  first
    [ apply trace_refused
    | match goal with
      | |- session_trace _ _ [?c; ?a; ?q] => apply (trace_closed _ _ [a])
      | |- session_trace _ _ [?c; ?a; ?b; ?q] => apply (trace_closed _ _ [a; b])
      | |- session_trace _ _ [?c; ?a; ?b; ?d; ?q] => apply (trace_closed _ _ [a; b; d])
      end;
      [ discriminate
      | unfold session_plan;
        repeat match goal with H : _ = true |- _ => rewrite H end;
        repeat match goal with H : _ = false |- _ => rewrite H end;
        cbn [app]; eexists; reflexivity ] ].

Lemma guarded_session_trace cfg msg w :
  exists evs,
    wire (try_except (notifier.smtp_session cfg msg) is_Exception
            (fun exc => logger_exception
                          "Failed to send notification email: %s" [] exc) w).2
    = (wire w ++ evs)%list
    /\ session_trace cfg msg evs
    /\ evs <> [].
Proof.
  unfold try_except, notifier.smtp_session, bind, with_exit, notifier.smtp,
    is_Exception.
  logs. cbn [lib wire add_log add_wire].
  repeat case_match; simplify_eq; cbn [snd]; session_leaf.
Qed.

Lemma notification_trace_of_session cfg w msg recipients attached subject body w1 :
  wire w1 = wire w ->
  notifier.str_join ", " (config.to_addresses cfg) = Ok recipients ->
  msg = composed_message cfg subject body recipients attached ->
  exists evs msg',
    wire (try_except (notifier.smtp_session cfg msg) is_Exception
            (fun exc => logger_exception
                          "Failed to send notification email: %s" [] exc) w1).2
    = (wire w ++ evs)%list
    /\ session_trace cfg msg' evs
    /\ (evs <> [] ->
        exists recipients attached,
          notifier.str_join ", " (config.to_addresses cfg) = Ok recipients
          /\ msg' = composed_message cfg subject body recipients attached).
Proof.
  intros Hw Hr ->.
  destruct (guarded_session_trace cfg
              (composed_message cfg subject body recipients attached) w1)
    as (evs & H1 & H2 & H3).
  exists evs, (composed_message cfg subject body recipients attached).
  rewrite H1, Hw. split; [done|]. split; [done|]. eauto.
Qed.

Lemma send_notification_trace
    self (subject body : string) (attachment : option Path) (w : world) :
  exists evs msg,
    wire (notifier.send_notification self subject body attachment w).2
    = (wire w ++ evs)%list
    /\ session_trace (notifier.config self) msg evs
    /\ (evs <> [] ->
        truthy (config.enabled (notifier.config self)) = true
        /\ truthy (config.to_addresses (notifier.config self)) = true
        /\ exists recipients attached,
             notifier.str_join ", " (config.to_addresses (notifier.config self))
             = Ok recipients
             /\ msg = composed_message (notifier.config self) subject body
                        recipients attached).
Proof.
  pose (G := fun run : result unit * world =>
    exists evs msg,
      wire run.2 = (wire w ++ evs)%list
      /\ session_trace (notifier.config self) msg evs
      /\ (evs <> [] ->
          truthy (config.enabled (notifier.config self)) = true
          /\ truthy (config.to_addresses (notifier.config self)) = true
          /\ exists recipients attached,
               notifier.str_join ", " (config.to_addresses (notifier.config self))
               = Ok recipients
               /\ msg = composed_message (notifier.config self) subject body
                          recipients attached)).
  change (G (notifier.send_notification self subject body attachment w)).
  assert (forall (r : result unit) w', wire w' = wire w -> G (r, w')) as Hquiet.
  { intros r w' Hw. exists [], notifier.new_message. simpl.
    rewrite app_nil_r. split; [done|]. split; [constructor|done]. }
  assert (truthy (config.enabled (notifier.config self)) = true ->
          truthy (config.to_addresses (notifier.config self)) = true ->
          forall msg recipients attached w1,
            wire w1 = wire w ->
            notifier.str_join ", " (config.to_addresses (notifier.config self))
            = Ok recipients ->
            msg = composed_message (notifier.config self) subject body
                    recipients attached ->
            G (try_except (notifier.smtp_session (notifier.config self) msg)
                 is_Exception
                 (fun exc => logger_exception
                               "Failed to send notification email: %s" [] exc) w1))
    as Hsession.
  { intros He Ht msg recipients attached w1 Hw Hr Hm.
    destruct (notification_trace_of_session _ w msg recipients attached subject body
                w1 Hw Hr Hm) as (evs & msg' & H1 & H2 & H3).
    exists evs, msg'. split; [done|]. split; [done|]. intros Hne.
    split; [done|]. split; [done|]. by apply H3. }
  clearbody G.
  unfold notifier.send_notification.
  destruct (truthy (config.enabled (notifier.config self))); simpl;
    [|by apply (Hquiet (Ok tt))].
  destruct (truthy (config.to_addresses (notifier.config self))); simpl;
    [|by apply (Hquiet (Ok tt))].
  specialize (Hsession eq_refl eq_refl).
  unfold bind at 1.
  destruct (notifier.set_header _ "Subject" _ w) as [[m1|e] w1] eqn:E1;
    pose proof (set_header_world _ _ _ _ _ _ E1) as ->;
    [|by apply (Hquiet (Raise e))].
  apply set_header_result in E1.
  unfold bind at 1.
  destruct (notifier.set_header m1 "From" _ w) as [[m2|e] w2] eqn:E2;
    pose proof (set_header_world _ _ _ _ _ _ E2) as ->;
    [|by apply (Hquiet (Raise e))].
  apply set_header_result in E2.
  unfold bind at 1, lift.
  destruct (notifier.str_join ", " (config.to_addresses (notifier.config self)))
    as [recipients|e] eqn:Er; [|by apply (Hquiet (Raise e))].
  unfold bind at 1.
  destruct (notifier.set_header m2 "To" _ w) as [[m3|e] w3] eqn:E3;
    pose proof (set_header_world _ _ _ _ _ _ E3) as ->;
    [|by apply (Hquiet (Raise e))].
  apply set_header_result in E3.
  subst m1 m2 m3. cbn [headers content attachments notifier.new_message app] in *.
  unfold bind.
  destruct attachment as [a|].
  - rewrite exists_present. destruct (present w a).
    + logs.
      destruct (os.read_bytes a _) as [[data|e] w4] eqn:E4;
        apply read_bytes_world in E4 as ->.
      * by apply (Hsession _ recipients [(name a, data)]).
      * by apply (Hquiet (Raise e)).
    + by apply (Hsession _ recipients []).
  - by apply (Hsession _ recipients []).
Qed.

(** X4. Whatever the settings, the message and the behaviour of the
    server, a notification puts on the network nothing at all, or one
    connection attempt that fails, or one connection followed by the
    planned commands in order (STARTTLS only if [use_tls] is set, LOGIN
    only if both user name and password are set, then the message) up to
    the first that fails, always closed by QUIT. *)
Theorem notification_network_trace
    self (subject body : string) (attachment : option Path) (w : world) :
  exists evs msg,
    wire (notifier.send_notification self subject body attachment w).2
    = (wire w ++ evs)%list
    /\ session_trace (notifier.config self) msg evs
    /\ (evs <> [] ->
        exists recipients attached,
          notifier.str_join ", " (config.to_addresses (notifier.config self))
          = Ok recipients
          /\ msg = composed_message (notifier.config self) subject body
                     recipients attached).
Proof.
  destruct (send_notification_trace self subject body attachment w)
    as (evs & msg & H1 & H2 & H3).
  exists evs, msg. split; [done|]. split; [done|].
  intros Hne. by destruct (H3 Hne) as (_ & _ & H).
Qed.

Lemma set_header_accepts msg n v w :
  single_line v -> header_factory (lib w) n v = None ->
  notifier.set_header msg n v w
  = (Ok {| headers := headers msg ++ [(n, v)];
           content := content msg;
           attachments := attachments msg |}, w).
Proof.
  intros Hs Hf. unfold notifier.set_header.
  assert (match v with
          | PStr s => (1 <? Str.count_lines false s)%nat
          | _ => false
          end = false) as -> by (by destruct v).
  by rewrite Hf.
Qed.

Lemma read_bytes_add_log p r w :
  os.read_bytes p (add_log r w) = ((os.read_bytes p w).1, add_log r w).
Proof.
  unfold os.read_bytes, os.lookup_node, os.resolve, os.start.
  cbn [fs cwd add_log]. repeat case_match; by simplify_eq.
Qed.

Lemma session_accepted cfg msg w :
  (forall history ev, smtp_reply (lib w) history ev = None) ->
  exists w',
    notifier.smtp_session cfg msg w = (Ok tt, w')
    /\ wire w' = (wire w ++ SmtpConnect (config.smtp_server cfg)
                                        (config.smtp_port cfg) 30
                         :: session_plan cfg msg ++ [SmtpQuit])%list
    /\ fs w' = fs w
    /\ last_record w' = Some success_record.
Proof.
  intros H.
  unfold notifier.smtp_session, bind, with_exit, notifier.smtp, session_plan.
  logs. cbn [lib wire add_log add_wire]. rewrite !H.
  destruct (truthy (config.use_tls cfg));
    destruct (truthy (config.username cfg) && truthy (config.password cfg));
    cbn [lib wire add_log add_wire]; rewrite ?H;
    cbn [lib wire add_log add_wire]; rewrite ?H;
    (eexists; split; [reflexivity|]);
    (split; [cbn [wire add_wire add_log app]; by rewrite <- ?app_assoc|]);
    (split; [reflexivity|apply last_record_add_log]).
Qed.

(** X5. When email is enabled, the recipients are a list of strings,
    no header value has more than one line, the attachment (if it
    exists) is a readable file, and the header factory and the SMTP
    server accept everything, the notification returns normally after
    one complete session: connection with a timeout of 30, the planned
    commands, the message with headers Subject, From and To (the
    recipients joined with a comma and a space), the body as content and
    the attachment under its file name (none when the path does not
    exist), then QUIT; the success is logged and no file is changed. *)
Theorem notification_sends_the_composed_message
    self (subject body : string) (attachment : option Path) (w : world)
    (recipients : string) :
  truthy (config.enabled (notifier.config self)) = true ->
  truthy (config.to_addresses (notifier.config self)) = true ->
  notifier.str_join ", " (config.to_addresses (notifier.config self)) = Ok recipients ->
  single_line (PStr subject) ->
  single_line (config.from_address (notifier.config self)) ->
  single_line (PStr recipients) ->
  (forall a, attachment = Some a -> present w a = true ->
             exists data, (os.read_bytes a w).1 = Ok data) ->
  (forall n v, header_factory (lib w) n v = None) ->
  (forall history ev, smtp_reply (lib w) history ev = None) ->
  exists w',
    notifier.send_notification self subject body attachment w = (Ok tt, w')
    /\ wire w'
       = (wire w
          ++ SmtpConnect (config.smtp_server (notifier.config self))
                         (config.smtp_port (notifier.config self)) 30
          :: session_plan (notifier.config self)
               (composed_message (notifier.config self) subject body recipients
                  (attached_file w attachment))
          ++ [SmtpQuit])%list
    /\ fs w' = fs w
    /\ last_record w' = Some success_record.
Proof.
  intros He Ht Hr Hs1 Hs2 Hs3 Ha Hf Hsmtp.
  unfold notifier.send_notification. rewrite He, Ht. cbn [negb].
  unfold bind at 1. rewrite (set_header_accepts _ _ _ _ Hs1 (Hf _ _)).
  unfold bind at 1. rewrite (set_header_accepts _ _ _ _ Hs2 (Hf _ _)).
  unfold bind at 1, lift. rewrite Hr.
  unfold bind at 1. rewrite (set_header_accepts _ _ _ _ Hs3 (Hf _ _)).
  cbn [headers content attachments notifier.new_message app notifier.set_content].
  assert (forall msg w1 attached,
            lib w1 = lib w -> wire w1 = wire w -> fs w1 = fs w ->
            msg = composed_message (notifier.config self) subject body
                    recipients attached ->
            attached = attached_file w attachment ->
            exists w',
              try_except (notifier.smtp_session (notifier.config self) msg)
                is_Exception
                (fun exc => logger_exception
                              "Failed to send notification email: %s" [] exc) w1
              = (Ok tt, w')
              /\ wire w'
                 = (wire w
                    ++ SmtpConnect (config.smtp_server (notifier.config self))
                                   (config.smtp_port (notifier.config self)) 30
                    :: session_plan (notifier.config self)
                         (composed_message (notifier.config self) subject body
                            recipients (attached_file w attachment))
                    ++ [SmtpQuit])%list
              /\ fs w' = fs w
              /\ last_record w' = Some success_record) as Hsession.
  { intros msg w1 attached Hl Hw Hfs -> ->.
    destruct (session_accepted (notifier.config self)
                (composed_message (notifier.config self) subject body recipients
                   (attached_file w attachment)) w1)
      as (w' & E & H1 & H2 & H3); [by rewrite Hl|].
    exists w'. unfold try_except. rewrite E, H1, H2, Hw, Hfs. done. }
  unfold bind.
  destruct attachment as [a|].
  - rewrite exists_present. destruct (present w a) eqn:Hp.
    + destruct (Ha a eq_refl Hp) as [data Hd]. logs.
      rewrite read_bytes_add_log, Hd.
      eapply Hsession; try reflexivity.
      unfold attached_file. by rewrite Hd, Hp.
    + eapply Hsession; try reflexivity.
      unfold attached_file. rewrite Hp. by destruct (os.read_bytes a w).1.
  - eapply Hsession; reflexivity.
Qed.

Lemma notification_sends_the_composed_message_witness :
  exists w',
    notifier.send_notification {| notifier.config := examples.mail_on |}
      "subject" "body" (Some examples.a_csv) examples.world0 = (Ok tt, w')
    /\ wire w'
       = [SmtpConnect (PStr "smtp.example.com") (PInt 587) 30;
          SmtpStartTls;
          SmtpLogin (PStr "bot") (PStr "secret");
          SmtpSendMessage {|
            headers := [("Subject", PStr "subject");
                        ("From", PStr "bot@example.com");
                        ("To", PStr "ops@example.com")];
            content := "body";
            attachments := [("a.csv", "x,y")] |};
          SmtpQuit]
    /\ fs w' = fs examples.world0
    /\ last_record w' = Some success_record.
Proof.
  apply (notification_sends_the_composed_message
           {| notifier.config := examples.mail_on |}
           "subject" "body" (Some examples.a_csv) examples.world0 "ops@example.com");
    try (vm_compute; reflexivity); try done.
  intros a [= <-] _. eexists. vm_compute. reflexivity.
Defined.

(** * Further properties: the downloads *)

Lemma preserves_ret {A X} (f : world -> X) (a : A) : preserves f (ret a).
Proof. by intros w r w' [= _ <-]. Qed.

Lemma preserves_raise {A X} (f : world -> X) e : preserves f (@raise A e).
Proof. by intros w r w' [= _ <-]. Qed.

Lemma preserves_lift {A X} (f : world -> X) (x : result A) : preserves f (lift x).
Proof. by intros w r w' [= _ <-]. Qed.

Lemma preserves_bind {A B X} (f : world -> X) (m : M A) (k : A -> M B) :
  preserves f m -> (forall a, preserves f (k a)) -> preserves f (bind m k).
Proof.
  intros Hm Hk w r w'. unfold bind.
  destruct (m w) as [[a|e] w1] eqn:E; intros H.
  - rewrite (Hk _ _ _ _ H). eauto.
  - injection H as _ <-. eauto.
Qed.

Lemma preserves_try_except {A X} (f : world -> X) (m : M A) c h :
  preserves f m -> (forall e, preserves f (h e)) -> preserves f (try_except m c h).
Proof.
  intros Hm Hh w r w'. unfold try_except.
  destruct (m w) as [[a|e] w1] eqn:E; intros H.
  - injection H as _ <-. eauto.
  - destruct (c e).
    + rewrite (Hh _ _ _ _ H). eauto.
    + injection H as _ <-. eauto.
Qed.

Lemma preserves_with_exit {A X} (f : world -> X) (m : M A) c :
  preserves f m -> preserves f c -> preserves f (with_exit m c).
Proof.
  intros Hm Hc w r w'. unfold with_exit.
  destruct (m w) as [a w1] eqn:E. destruct (c w1) as [[u|e] w2] eqn:E2;
    intros [= _ <-]; rewrite (Hc _ _ _ E2); eauto.
Qed.

Lemma preserves_for_in {A S X} (f : world -> X) (items : list A)
    (body : A -> S -> M S) s :
  (forall x s, preserves f (body x s)) -> preserves f (for_in items body s).
Proof.
  intros Hb. revert s. induction items as [|x items IH]; intros s; simpl.
  - apply preserves_ret.
  - apply preserves_bind; auto.
Qed.

Lemma preserves_unchanged {A X} (f : world -> X) (m : M A) :
  unchanged m -> preserves f m.
Proof. intros H w r w' E. by rewrite (H _ _ _ E). Qed.

Ltac prim_wire :=
  let w := fresh "w" in let r := fresh "r" in let w' := fresh "w'" in
  let H := fresh "H" in
  intros w r w' H; cbv beta delta [set_fs set_buffers add_log add_wire] in H;
  repeat case_match; simplify_eq; reflexivity.

Lemma wire_logger_info f a : preserves wire (logger_info f a).
Proof. unfold logger_info. prim_wire. Qed.
Lemma wire_logger_warning f a : preserves wire (logger_warning f a).
Proof. unfold logger_warning. prim_wire. Qed.
Lemma wire_logger_exception f a e : preserves wire (logger_exception f a e).
Proof. unfold logger_exception. prim_wire. Qed.
Lemma wire_open_w p : preserves wire (os.open_w p).
Proof. unfold os.open_w. prim_wire. Qed.
Lemma wire_write k d : preserves wire (os.write k d).
Proof. unfold os.write. prim_wire. Qed.
Lemma wire_close k : preserves wire (os.close k).
Proof. unfold os.close. prim_wire. Qed.
Lemma wire_mkdir p : preserves wire (os.mkdir p).
Proof. unfold os.mkdir. prim_wire. Qed.
Lemma wire_rename p q : preserves wire (os.rename p q).
Proof. unfold os.rename. prim_wire. Qed.
Lemma wire_stat p : preserves wire (os.stat p).
Proof. unfold os.stat, os.lookup_node. prim_wire. Qed.
Lemma wire_unlink p : preserves wire (os.unlink p).
Proof. unfold os.unlink. prim_wire. Qed.
Lemma wire_samefile p q : preserves wire (shutil._samefile p q).
Proof. unfold shutil._samefile. prim_wire. Qed.
Lemma wire_destinsrc p q : preserves wire (shutil._destinsrc p q).
Proof. unfold shutil._destinsrc. prim_wire. Qed.
Lemma wire_copytree_rmtree p q : preserves wire (shutil.copytree_rmtree p q).
Proof. unfold shutil.copytree_rmtree. prim_wire. Qed.
Lemma wire_raise_for_status resp :
  preserves wire (file_downloader.raise_for_status resp).
Proof.
  unfold file_downloader.raise_for_status.
  destruct (_ && _); [apply preserves_raise|apply preserves_ret].
Qed.
Lemma wire_exists p : preserves wire (os.exists_ p).
Proof. apply preserves_unchanged, unchanged_exists. Qed.
Lemma wire_read_bytes p : preserves wire (os.read_bytes p).
Proof. apply preserves_unchanged, unchanged_read_bytes. Qed.

Create HintDb wire.
#[local] Hint Resolve preserves_ret preserves_raise preserves_lift
  wire_logger_info wire_logger_warning wire_logger_exception
  wire_open_w wire_write wire_close wire_mkdir wire_rename wire_stat
  wire_unlink wire_samefile wire_destinsrc wire_copytree_rmtree
  wire_exists wire_read_bytes wire_raise_for_status : wire.

Ltac wires :=
  repeat first
    [ lazymatch goal with |- preserves _ _ => fail | |- _ => intro end
    | solve [auto with wire]
    | lazymatch goal with
      | |- preserves _ (bind _ _) => apply preserves_bind
      | |- preserves _ (try_except _ _ _) => apply preserves_try_except
      | |- preserves _ (with_exit _ _) => apply preserves_with_exit
      | |- preserves _ (for_in _ _ _) => apply preserves_for_in
      | |- preserves _ (os.with_open_w _ _) => unfold os.with_open_w
      | |- preserves _ (if ?b then _ else _) => destruct b
      | |- preserves _ (match ?o with _ => _ end) => destruct o
      end
    | solve [prim_wire] ].

Lemma download_single_wire self url w :
  wire (file_downloader._download_single self url w).2
  = (wire w ++ if parses (lib w) url then [HttpGet url 30] else [])%list.
Proof.
  unfold file_downloader._download_single, parses.
  unfold bind at 1. logs.
  unfold bind at 1, file_downloader.urlparse_path_of at 1. cbn [lib add_log].
  destruct (urlparse_path (lib w) url) as [pp|e]; [|by rewrite app_nil_r].
  unfold bind at 1, file_downloader.requests_get_ at 1. cbn [lib wire add_log].
  set (w1 := add_wire _ _).
  change (wire w ++ [HttpGet url 30])%list with (wire w1). clearbody w1.
  destruct (requests_get _ _ _) as [resp|e]; [|done].
  match goal with
  | |- wire (?m w1).2 = _ =>
      assert (preserves wire m) as Hm by wires;
      destruct (m w1) as [r w2] eqn:E; exact (Hm _ _ _ E)
  end.
Qed.

Lemma download_one_wire self url acc w :
  wire (file_downloader.download_one self url acc w).2
  = (wire w ++ if parses (lib w) url then [HttpGet url 30] else [])%list.
Proof.
  rewrite <- (download_single_wire self).
  unfold file_downloader.download_one, try_except. unfold bind at 1.
  by destruct (file_downloader._download_single self url w) as [[[p|]|e] w1].
Qed.

Lemma download_one_lib self url acc w :
  lib (file_downloader.download_one self url acc w).2 = lib w.
Proof.
  destruct (download_one_appends self url w) as (o & w' & Hl & _ & H).
  by rewrite H.
Qed.

Lemma download_files_wire self urls w :
  wire (file_downloader.download_files self urls w).2
  = (wire w ++ requests_of (lib w) urls)%list.
Proof.
  unfold file_downloader.download_files, requests_of. generalize (@nil Path) as acc.
  revert w. induction urls as [|url urls IH]; intros w acc.
  - simpl. by rewrite app_nil_r.
  - cbn [for_in]. unfold bind.
    pose proof (download_one_wire self url acc w) as Hw.
    pose proof (download_one_lib self url acc w) as Hl.
    destruct (file_downloader.download_one self url acc w) as [[acc'|e] w1] eqn:E.
    + cbn [snd] in Hw, Hl. rewrite IH, Hw, Hl. cbn [List.filter].
      destruct (parses (lib w) url); cbn [List.map];
        by rewrite <- app_assoc.
    + exfalso. revert E. unfold file_downloader.download_one, try_except.
      destruct (bind _ _ w) as [[a|e'] w2]; [done|].
      destruct (is_Exception e') eqn:He; [|by destruct e'].
      unfold bind. logs. done.
Qed.

(** X6. The requests of a batch of downloads: [download_files] sends one
    GET request, with a timeout of 30 seconds, for each URL that [urlparse]
    accepts, in the order of the input, and nothing else goes over the
    network, whatever the answers are. *)
Theorem download_files_requests_each_url_once self urls w :
  wire (file_downloader.download_files self urls w).2
  = (wire w ++ List.map (fun url => HttpGet url 30)
                         (List.filter (parses (lib w)) urls))%list.
Proof. exact (download_files_wire self urls w). Qed.

Lemma with_open_w_stores p k data w :
  os.resolve w p = Ok k -> os.node_at (fs w) k <> Some Dir ->
  exists w',
    os.with_open_w p (fun f => os.write f data) w = (Ok tt, w')
    /\ fs w' = <[k := File data]> (fs w)
    /\ log w' = log w /\ wire w' = wire w /\ lib w' = lib w /\ cwd w' = cwd w.
Proof.
  intros Hr Hn. unfold os.with_open_w, bind, with_exit, os.open_w. rewrite Hr.
  assert (forall w1, w1 = set_buffers (<[k := EmptyString]> (buffers w))
                          (set_fs (<[k := File EmptyString]> (fs w)) w) ->
          exists w',
            match os.close k (os.write k data w1).2 with
            | (Ok _, w'') => ((os.write k data w1).1, w'')
            | (Raise e, w'') => (Raise e, w'')
            end = (Ok tt, w')
            /\ fs w' = <[k := File data]> (fs w)
            /\ log w' = log w /\ wire w' = wire w /\ lib w' = lib w
            /\ cwd w' = cwd w) as H.
  { intros w1 ->. unfold os.write, os.close.
    cbn [buffers fs set_buffers set_fs snd fst]. rewrite !lookup_insert_eq.
    eexists. split; [reflexivity|].
    cbn [buffers fs log wire lib cwd set_buffers set_fs].
    rewrite append_empty_l, append_empty_l, insert_insert_eq. done. }
  destruct (os.node_at (fs w) k) as [[c|]|]; [|done|].
  - destruct (H _ eq_refl) as (w' & E & Hw'). exists w'. split; [|done].
    revert E. by destruct (os.write k data _) as [[[]|] ?].
  - destruct (H _ eq_refl) as (w' & E & Hw'). exists w'. split; [|done].
    revert E. by destruct (os.write k data _) as [[[]|] ?].
Qed.

(** X7. A fetch that fails writes nothing: when the URL is not parsed,
    the request raises, or the response carries a status from 400 to 599,
    the download of that URL is skipped -- the list of downloaded paths
    is returned as it was, no file is created, truncated or changed, and
    the failure is logged with its exception. *)
Theorem failed_fetch_writes_nothing self url acc w :
  fetch_fails w url ->
  exists w' e,
    file_downloader.download_one self url acc w = (Ok acc, w')
    /\ fs w' = fs w
    /\ buffers w' = buffers w
    /\ last_record w'
       = Some (LogRecord ERROR "Failed to download %s: %s" [PStr url] (Some e)).
Proof.
  unfold fetch_fails.
  unfold file_downloader.download_one, try_except, file_downloader._download_single.
  unfold bind at 1. unfold bind at 1. logs.
  unfold bind at 1, file_downloader.urlparse_path_of at 1. cbn [lib add_log].
  destruct (urlparse_path (lib w) url) as [pp|e].
  - unfold bind at 1, file_downloader.requests_get_ at 1. cbn [lib wire add_log].
    destruct (requests_get (lib w) (wire w) url) as [[status body]|e].
    + intros Hs. unfold bind at 1, file_downloader.raise_for_status at 1.
      cbn [fst].
      assert ((400 <=? status)%Z && (status <? 600)%Z = true) as ->
        by (apply andb_true_iff; split; [apply Z.leb_le|apply Z.ltb_lt]; lia).
      eexists _, HTTPError. split; [reflexivity|].
      do 2 (split; [reflexivity|]). apply last_record_add_log.
    + intros _. eexists _, e. split; [reflexivity|].
      do 2 (split; [reflexivity|]). apply last_record_add_log.
  - intros _. eexists _, e. split; [reflexivity|].
    do 2 (split; [reflexivity|]). apply last_record_add_log.
Qed.

Lemma failed_fetch_writes_nothing_witness :
  exists w' e,
    file_downloader.download_one more_examples.downloads
      "http://example.com/files/a.csv" [] (more_examples.world_serving 404 "gone")
    = (Ok [], w')
    /\ fs w' = fs (more_examples.world_serving 404 "gone")
    /\ buffers w' = buffers (more_examples.world_serving 404 "gone")
    /\ last_record w'
       = Some (LogRecord ERROR "Failed to download %s: %s"
                 [PStr "http://example.com/files/a.csv"] (Some e)).
Proof.
  apply (failed_fetch_writes_nothing more_examples.downloads
           "http://example.com/files/a.csv" [] (more_examples.world_serving 404 "gone")).
  unfold fetch_fails. simpl. lia.
Defined.

Lemma download_one_effect self url acc w parsed_path status body k :
  urlparse_path (lib w) url = Ok parsed_path ->
  requests_get (lib w) (wire w) url = Ok (status, body) ->
  ~ (400 <= status < 600)%Z ->
  os.resolve w (file_downloader.download_dir self // filename_of parsed_path) = Ok k ->
  os.node_at (fs w) k <> Some Dir ->
  exists w',
    file_downloader.download_one self url acc w
    = (Ok (acc ++ [file_downloader.download_dir self // filename_of parsed_path])%list, w')
    /\ fs w' = <[k := File body]> (fs w)
    /\ wire w' = (wire w ++ [HttpGet url 30])%list
    /\ lib w' = lib w /\ cwd w' = cwd w.
Proof.
  intros Hu Hg Hs Hr Hn.
  unfold file_downloader.download_one, try_except, file_downloader._download_single.
  unfold bind at 1. unfold bind at 1. logs.
  unfold bind at 1, file_downloader.urlparse_path_of at 1. cbn [lib add_log].
  rewrite Hu.
  unfold bind at 1, file_downloader.requests_get_ at 1. cbn [lib wire add_log].
  rewrite Hg.
  unfold bind at 1, file_downloader.raise_for_status at 1. cbn [fst snd].
  assert ((400 <=? status)%Z && (status <? 600)%Z = false) as ->.
  { apply andb_false_iff.
    destruct (Z.leb_spec 400 status); [|by left].
    destruct (Z.ltb_spec status 600); [lia|by right]. }
  fold (filename_of parsed_path).
  set (w1 := add_wire _ _).
  change (ret tt w1) with (Ok tt, w1). cbv beta iota.
  destruct (with_open_w_stores
              (file_downloader.download_dir self // filename_of parsed_path)
              k body w1 Hr Hn) as (w2 & E & Hf & _ & Hwi & Hl & Hc).
  unfold bind at 1. rewrite E. cbn.
  eexists. split; [reflexivity|]. cbn [fs wire lib cwd add_log].
  rewrite Hf, Hwi, Hl, Hc. done.
Qed.

(** X8. A successful download stores the body: when the URL is parsed,
    the response has a status outside 400..599 and the destination
    (the download directory joined with the last component of the path of
    the URL, or with [downloaded_file] when that is empty) can be opened,
    the destination is appended to the downloaded paths and holds exactly
    the body of the response, replacing what was there; no other file
    changes. *)
Theorem download_stores_the_body self url acc w parsed_path status body k :
  urlparse_path (lib w) url = Ok parsed_path ->
  requests_get (lib w) (wire w) url = Ok (status, body) ->
  ~ (400 <= status < 600)%Z ->
  os.resolve w (file_downloader.download_dir self // filename_of parsed_path) = Ok k ->
  os.node_at (fs w) k <> Some Dir ->
  exists w',
    file_downloader.download_one self url acc w
    = (Ok (acc ++ [file_downloader.download_dir self // filename_of parsed_path])%list, w')
    /\ fs w' = <[k := File body]> (fs w).
Proof.
  intros Hu Hg Hs Hr Hn.
  destruct (download_one_effect self url acc w parsed_path status body k
              Hu Hg Hs Hr Hn) as (w' & E & Hf & _).
  by exists w'.
Qed.

Lemma download_stores_the_body_witness :
  exists w',
    file_downloader.download_one more_examples.downloads
      "http://example.com/files/a.csv" [] (more_examples.world_serving 200 "1,2")
    = (Ok [mkPath EmptyString ["downloads"; "a.csv"]], w')
    /\ fs w' = <[ ["downloads"; "a.csv"] := File "1,2" ]> examples.disk.
Proof.
  apply (download_stores_the_body more_examples.downloads
           "http://example.com/files/a.csv" [] (more_examples.world_serving 200 "1,2")
           "/files/a.csv" 200 "1,2" ["downloads"; "a.csv"]).
  - reflexivity.
  - reflexivity.
  - lia.
  - vm_compute. reflexivity.
  - vm_compute. discriminate.
Defined.

Lemma walk_insert_file f k b cur comps k' :
  os.node_at f k <> Some Dir ->
  os.walk f cur comps = Ok k' ->
  os.walk (<[k := File b]> f) cur comps = Ok k'.
Proof.
  intros Hk. revert cur. induction comps as [|c comps IH]; intros cur; simpl; [done|].
  destruct (os.node_at f cur) as [[|]|] eqn:Hn; [done| |done].
  intros H. assert (os.node_at (<[k := File b]> f) cur = Some Dir) as ->; [|by apply IH].
  destruct cur as [|x cur]; [done|]. simpl in *.
  rewrite lookup_insert_ne; [done|]. intros ->. by apply Hk.
Qed.

(** X9. Two URLs with the same file name: when both downloads succeed
    and the paths of the two URLs end in the same name, the second body
    replaces the first in the one destination file, and the destination
    is listed twice among the downloaded paths. *)
Theorem same_name_downloads_collide
    self url1 url2 w path1 path2 status1 status2 body1 body2 k :
  urlparse_path (lib w) url1 = Ok path1 ->
  urlparse_path (lib w) url2 = Ok path2 ->
  filename_of path1 = filename_of path2 ->
  requests_get (lib w) (wire w) url1 = Ok (status1, body1) ->
  requests_get (lib w) (wire w ++ [HttpGet url1 30]) url2 = Ok (status2, body2) ->
  ~ (400 <= status1 < 600)%Z ->
  ~ (400 <= status2 < 600)%Z ->
  os.resolve w (file_downloader.download_dir self // filename_of path1) = Ok k ->
  os.node_at (fs w) k <> Some Dir ->
  exists w',
    file_downloader.download_files self [url1; url2] w
    = (Ok [file_downloader.download_dir self // filename_of path1;
           file_downloader.download_dir self // filename_of path1], w')
    /\ fs w' = <[k := File body2]> (fs w).
Proof.
  intros Hu1 Hu2 Hname Hg1 Hg2 Hs1 Hs2 Hr Hn.
  destruct (download_one_effect self url1 [] w path1 status1 body1 k
              Hu1 Hg1 Hs1 Hr Hn) as (w1 & E1 & Hf1 & Hw1 & Hl1 & Hc1).
  destruct (download_one_effect self url2
              [file_downloader.download_dir self // filename_of path1]
              w1 path2 status2 body2 k) as (w2 & E2 & Hf2 & _).
  - by rewrite Hl1.
  - by rewrite Hl1, Hw1.
  - done.
  - rewrite <- Hname. unfold os.resolve, os.start in *. rewrite Hf1, Hc1.
    by apply walk_insert_file.
  - rewrite Hf1. destruct k as [|x k]; [by destruct Hn|]. simpl.
    by rewrite lookup_insert_eq.
  - exists w2. unfold file_downloader.download_files. cbn [for_in]. unfold bind.
    rewrite E1. cbn [app]. rewrite E2, <- Hname. cbn [app]. split; [done|].
    by rewrite Hf2, Hf1, insert_insert_eq.
Qed.

Lemma same_name_downloads_collide_witness :
  exists w',
    file_downloader.download_files more_examples.downloads
      ["http://example.com/files/a.csv"; "http://mirror.example.org/a.csv"]
      (more_examples.world_serving 200 "1,2")
    = (Ok [mkPath EmptyString ["downloads"; "a.csv"];
           mkPath EmptyString ["downloads"; "a.csv"]], w')
    /\ fs w' = <[ ["downloads"; "a.csv"] := File "1,2" ]> examples.disk.
Proof.
  apply (same_name_downloads_collide more_examples.downloads
           "http://example.com/files/a.csv" "http://mirror.example.org/a.csv"
           (more_examples.world_serving 200 "1,2")
           "/files/a.csv" "/files/a.csv" 200 200 "1,2" "1,2" ["downloads"; "a.csv"]).
  - reflexivity.
  - reflexivity.
  - reflexivity.
  - reflexivity.
  - reflexivity.
  - lia.
  - lia.
  - vm_compute. reflexivity.
  - vm_compute. discriminate.
Defined.

(** * Further properties: renaming and sorting *)

Lemma skip_loop {A} (P : world -> Path -> Prop)
    (body : Path -> list A -> M (list A)) rec files acc w :
  (forall r w p, P w p -> P (add_log r w) p) ->
  (forall p acc w, P w p -> body p acc w = (Ok acc, add_log (rec p) w)) ->
  Forall (P w) files ->
  exists w',
    for_in files body acc w = (Ok acc, w')
    /\ fs w' = fs w /\ log w' = (log w ++ (rec <$> files))%list.
Proof.
  intros HP Hb. revert w. induction files as [|p files IH]; intros w HF.
  - exists w. simpl. by rewrite app_nil_r.
  - apply Forall_cons in HF as [Hp HF].
    destruct (IH (add_log (rec p) w)) as (w' & E & Hf & Hl).
    { eapply Forall_impl; [exact HF|]. intros q Hq. by apply HP. }
    exists w'. cbn [for_in]. unfold bind. rewrite (Hb _ _ _ Hp), E.
    split; [done|]. split; [done|].
    rewrite Hl. cbn [log add_log fmap list_fmap]. by rewrite <- app_assoc.
Qed.

Lemma rename_one_missing prefix suffix p acc w :
  present w p = false ->
  file_manager.rename_one prefix suffix p acc w
  = (Ok acc, add_log (rename_skip_record p) w).
Proof.
  intros Hp. unfold file_manager.rename_one, try_except, bind.
  rewrite exists_present, Hp. reflexivity.
Qed.

Lemma sort_one_missing self p acc w :
  present w p = false ->
  file_manager.sort_one self p acc w = (Ok acc, add_log (sort_skip_record p) w).
Proof.
  intros Hp. unfold file_manager.sort_one, try_except, bind.
  rewrite exists_present, Hp. reflexivity.
Qed.

(** X10. Missing files are skipped: when none of the given paths exists,
    [rename_files] and [sort_files_by_extension] return the empty list,
    leave the file system as it is (no category directory is created
    either) and log one warning per path, in the order of the input. *)
Theorem missing_files_are_skipped self prefix suffix files w :
  Forall (fun p => present w p = false) files ->
  (exists w',
      file_manager.rename_files self files prefix suffix w = (Ok [], w')
      /\ fs w' = fs w
      /\ log w' = (log w ++ (rename_skip_record <$> files))%list)
  /\ (exists w',
        file_manager.sort_files_by_extension self files w = (Ok [], w')
        /\ fs w' = fs w
        /\ log w' = (log w ++ (sort_skip_record <$> files))%list).
Proof.
  intros HF. split.
  - apply (skip_loop (fun w p => present w p = false)); [done| |done].
    intros. by apply rename_one_missing.
  - apply (skip_loop (fun w p => present w p = false)); [done| |done].
    intros. by apply sort_one_missing.
Qed.

Lemma missing_files_are_skipped_witness :
  (exists w',
      file_manager.rename_files more_examples.manager
        [examples.missing_file; examples.under_a_file] "new_" EmptyString examples.world0
      = (Ok [], w')
      /\ fs w' = fs examples.world0
      /\ log w' = (log examples.world0
                   ++ (rename_skip_record
                         <$> [examples.missing_file; examples.under_a_file]))%list)
  /\ (exists w',
        file_manager.sort_files_by_extension more_examples.manager
          [examples.missing_file; examples.under_a_file] examples.world0
        = (Ok [], w')
        /\ fs w' = fs examples.world0
        /\ log w' = (log examples.world0
                     ++ (sort_skip_record
                           <$> [examples.missing_file; examples.under_a_file]))%list).
Proof.
  apply (missing_files_are_skipped more_examples.manager
           "new_" EmptyString [examples.missing_file; examples.under_a_file]
           examples.world0).
  repeat constructor.
Defined.

Lemma childless_not_below f src k v :
  os.has_children f src = false -> f !! k = Some v -> k <> src ->
  bool_decide (src `prefix_of` k) = false.
Proof.
  intros Hc Hk Hne.
  destruct (bool_decide (src `prefix_of` k)) eqn:Hp.
  - exfalso. apply not_true_iff_false in Hc. apply Hc.
    unfold os.has_children. apply existsb_exists. exists (k, v). split.
    + apply list_elem_of_In, elem_of_map_to_list, Hk.
    + simpl. rewrite Hp. by rewrite bool_decide_eq_true_2.
  - done.
Qed.

(** Moving a node that has nothing below it. *)
Lemma move_tree_childless f src dst n :
  f !! src = Some n -> src <> dst -> os.has_children f src = false ->
  os.move_tree f src dst = <[dst := n]> (delete src f).
Proof.
  intros Hs Hne Hc. unfold os.move_tree.
  set (m := delete dst f). set (m' := delete src m).
  assert (m !! src = Some n) as Hm by (subst m; by rewrite lookup_delete_ne).
  assert (prod_map (os.rekey src dst) id <$> map_to_list m'
          = map_to_list m') as Hid.
  { rewrite <- (list_fmap_id (map_to_list m')) at 2.
    apply Forall_fmap_ext, Forall_forall.
    intros [k v] Hkv%elem_of_map_to_list.
    subst m' m. apply lookup_delete_Some in Hkv as [Hk1 Hkv].
    apply lookup_delete_Some in Hkv as [Hk2 Hkv].
    pose proof (childless_not_below f src k v Hc Hkv ltac:(done)) as Hp.
    unfold prod_map, os.rekey. simpl. by rewrite Hp. }
  assert (os.rekey src dst src = dst) as Hsrc.
  { unfold os.rekey. rewrite bool_decide_eq_true_2 by done.
    by rewrite drop_all, app_nil_r. }
  transitivity (list_to_map ((dst, n) :: map_to_list m') : gmap (list string) node).
  - symmetry. apply list_to_map_proper.
    + cbn [fmap list_fmap fst]. apply NoDup_cons. split.
      * intros Hin. apply list_elem_of_fmap in Hin as ([k v] & -> & Hin).
        apply elem_of_map_to_list in Hin. subst m' m. simpl in Hin.
        rewrite lookup_delete_ne in Hin by done.
        by rewrite lookup_delete_eq in Hin.
      * apply NoDup_fst_map_to_list.
    + rewrite <- (map_to_list_delete m src n Hm). fold m'.
      cbn [fmap list_fmap]. rewrite Hid. unfold prod_map at 1. simpl.
      by rewrite Hsrc.
  - cbn [list_to_map foldr]. simpl. rewrite list_to_map_to_list.
    subst m' m. apply map_eq. intros k.
    destruct (decide (k = dst)) as [->|Hk].
    + by rewrite !lookup_insert_eq.
    + rewrite !lookup_insert_ne by done.
      destruct (decide (k = src)) as [->|Hk'].
      * by rewrite !lookup_delete_eq.
      * by rewrite !lookup_delete_ne.
Qed.

Lemma node_at_file f k c : os.node_at f k = Some (File c) -> k <> [] /\ f !! k = Some (File c).
Proof. by destruct k. Qed.

Lemma rename_file_effect p q w ks kd c :
  os.resolve w p = Ok ks ->
  os.node_at (fs w) ks = Some (File c) ->
  os.has_children (fs w) ks = false ->
  os.resolve w q = Ok kd ->
  os.node_at (fs w) kd <> Some Dir ->
  exists w',
    os.rename p q w = (Ok tt, w')
    /\ fs w' = <[kd := File c]> (delete ks (fs w))
    /\ cwd w' = cwd w /\ log w' = log w /\ lib w' = lib w.
Proof.
  intros Hr Hn Hc Hrq Hnq.
  destruct (node_at_file _ _ _ Hn) as [Hks Hf].
  assert (kd <> []) as Hkd by (intros ->; by apply Hnq).
  unfold os.rename. rewrite Hr, Hrq, Hn.
  destruct (decide (ks = kd)) as [<-|Hne].
  - rewrite bool_decide_eq_true_2 by done. eexists. split; [reflexivity|].
    by rewrite insert_delete_id.
  - rewrite bool_decide_eq_false_2 by done.
    rewrite (bool_decide_eq_false_2 (ks = [])) by done.
    rewrite (bool_decide_eq_false_2 (kd = [])) by done.
    cbv beta iota delta [orb].
    destruct (os.node_at (fs w) kd) as [[c'|]|]; [|done|];
      (eexists; split; [reflexivity|]);
      cbn [fs cwd log lib set_fs]; (split; [by apply move_tree_childless|done]).
Qed.

(** X11. The effect of a renaming: for an existing regular file, once the
    new name has been computed and accepted by [with_name], and unless a
    directory stands at the new path, [rename_files] moves the content of
    the file to the new path, silently replacing a file that is already
    there; the old path is gone (unless both are the same file) and no
    other file changes. *)
Theorem rename_moves_the_file prefix suffix p acc w ks c q kd :
  os.resolve w p = Ok ks ->
  os.node_at (fs w) ks = Some (File c) ->
  os.has_children (fs w) ks = false ->
  with_name p (file_manager._build_new_name (name p) prefix suffix) = Ok q ->
  os.resolve w q = Ok kd ->
  os.node_at (fs w) kd <> Some Dir ->
  exists w',
    file_manager.rename_one prefix suffix p acc w = (Ok (acc ++ [q])%list, w')
    /\ fs w' = <[kd := File c]> (delete ks (fs w)).
Proof.
  intros Hr Hn Hc Hq Hrq Hnq.
  unfold file_manager.rename_one, try_except. unfold bind at 1. unfold bind at 1.
  rewrite exists_present. unfold present. rewrite Hr, Hn. cbv beta iota delta [negb].
  unfold bind at 1. rewrite Hq. logs. unfold bind at 1. cbv beta iota.
  unfold bind at 1.
  match goal with |- context [os.rename p q ?w1] =>
    destruct (rename_file_effect p q w1 ks kd c Hr Hn Hc Hrq Hnq)
      as (w' & -> & Hf & _)
  end.
  eexists. split; [reflexivity|]. exact Hf.
Qed.

Lemma rename_moves_the_file_witness :
  exists w',
    file_manager.rename_one "new_" EmptyString examples.a_csv [] examples.world0
    = (Ok [mkPath EmptyString ["downloads"; "new_a.csv"]], w')
    /\ fs w' = <[ ["downloads"; "new_a.csv"] := File "x,y" ]>
                 (delete ["downloads"; "a.csv"] (fs examples.world0)).
Proof.
  apply (rename_moves_the_file "new_" EmptyString examples.a_csv [] examples.world0
           ["downloads"; "a.csv"] "x,y"
           (mkPath EmptyString ["downloads"; "new_a.csv"])
           ["downloads"; "new_a.csv"]).
  - reflexivity.
  - reflexivity.
  - vm_compute. reflexivity.
  - vm_compute. reflexivity.
  - vm_compute. reflexivity.
  - vm_compute. discriminate.
Defined.

Lemma isdir_false q w kd :
  os.resolve w q = Ok kd -> os.node_at (fs w) kd <> Some Dir ->
  os.isdir q w = (Ok false, w).
Proof.
  intros Hr Hn. unfold os.isdir, try_except, bind, os.stat, os.lookup_node.
  rewrite Hr. by destruct (os.node_at (fs w) kd) as [[|]|].
Qed.

Lemma move_file_effect p q w ks kd c :
  os.resolve w p = Ok ks ->
  os.node_at (fs w) ks = Some (File c) ->
  os.has_children (fs w) ks = false ->
  os.resolve w q = Ok kd ->
  os.node_at (fs w) kd <> Some Dir ->
  exists w',
    shutil.move p q w = (Ok tt, w')
    /\ fs w' = <[kd := File c]> (delete ks (fs w))
    /\ cwd w' = cwd w /\ log w' = log w /\ lib w' = lib w.
Proof.
  intros Hr Hn Hc Hrq Hnq. unfold shutil.move. unfold bind at 1.
  rewrite (isdir_false q w kd Hrq Hnq). unfold bind at 1. logs.
  cbv beta iota. unfold bind at 1. cbv beta iota. unfold try_except.
  destruct (rename_file_effect p q w ks kd c Hr Hn Hc Hrq Hnq) as (w' & -> & H).
  by exists w'.
Qed.

(** X12. The effect of a sorting: for an existing regular file, once the
    category directory has been made, and unless a directory stands at
    the destination, [sort_files_by_extension] moves the content of the
    file to the category directory under its own name, silently replacing
    a file of that name that is already there; apart from the directories
    made for the category, no other file changes. *)
Theorem sort_moves_the_file self p acc w w1 ks c kd :
  present w p = true ->
  os.mkdir (category_dir self p) w = (Ok tt, w1) ->
  os.resolve w1 p = Ok ks ->
  os.node_at (fs w1) ks = Some (File c) ->
  os.has_children (fs w1) ks = false ->
  os.resolve w1 (sorted_path self p) = Ok kd ->
  os.node_at (fs w1) kd <> Some Dir ->
  exists w',
    file_manager.sort_one self p acc w = (Ok (acc ++ [sorted_path self p])%list, w')
    /\ fs w' = <[kd := File c]> (delete ks (fs w1)).
Proof.
  unfold sorted_path, category_dir. intros Hp Hmk Hr Hn Hc Hrq Hnq.
  unfold file_manager.sort_one, try_except. unfold bind at 1. unfold bind at 1.
  rewrite exists_present, Hp. cbv beta iota delta [negb].
  unfold bind at 1. rewrite Hmk. cbv beta iota.
  unfold bind at 1. logs. cbv beta iota. unfold bind at 1.
  match goal with |- context [shutil.move p ?q ?w2] =>
    destruct (move_file_effect p q w2 ks kd c Hr Hn Hc Hrq Hnq)
      as (w' & -> & Hf & _)
  end.
  eexists. split; [reflexivity|]. exact Hf.
Qed.

Lemma sort_moves_the_file_witness :
  exists w',
    file_manager.sort_one more_examples.manager examples.a_csv [] examples.world0
    = (Ok [mkPath EmptyString ["data"; "a.csv"]], w')
    /\ fs w' = <[ ["data"; "a.csv"] := File "x,y" ]>
                 (delete ["downloads"; "a.csv"] (<[ ["data"] := Dir ]> examples.disk)).
Proof.
  destruct (sort_moves_the_file more_examples.manager examples.a_csv []
              examples.world0
              (set_fs (<[ ["data"] := Dir ]> examples.disk) examples.world0)
              ["downloads"; "a.csv"] "x,y" ["data"; "a.csv"])
    as (w' & E & Hf).
  - reflexivity.
  - vm_compute. reflexivity.
  - vm_compute. reflexivity.
  - vm_compute. reflexivity.
  - vm_compute. reflexivity.
  - vm_compute. reflexivity.
  - vm_compute. discriminate.
  - exists w'. split; [|exact Hf]. rewrite E. do 3 f_equal.
Defined.





Lemma isdir_true q w kd :
  os.resolve w q = Ok kd -> os.node_at (fs w) kd = Some Dir ->
  os.isdir q w = (Ok true, w).
Proof.
  intros Hr Hn. unfold os.isdir, try_except, bind, os.stat, os.lookup_node.
  by rewrite Hr, Hn.
Qed.

(** X14. Sorting onto a directory: when a directory already stands at
    the destination of a file (category directory / name), the file is
    moved inside that directory, under its own name, but the path that
    [sort_files_by_extension] returns for it is the directory, not the
    place of the file. *)
Theorem sort_onto_a_directory_moves_inside self p acc w w1 ks c kd k :
  present w p = true ->
  os.mkdir (category_dir self p) w = (Ok tt, w1) ->
  os.resolve w1 p = Ok ks ->
  os.node_at (fs w1) ks = Some (File c) ->
  os.has_children (fs w1) ks = false ->
  os.resolve w1 (sorted_path self p) = Ok kd ->
  os.node_at (fs w1) kd = Some Dir ->
  os.resolve w1 (sorted_path self p // name p) = Ok k ->
  os.node_at (fs w1) k = None ->
  exists w',
    file_manager.sort_one self p acc w = (Ok (acc ++ [sorted_path self p])%list, w')
    /\ fs w' = <[k := File c]> (delete ks (fs w1)).
Proof.
  unfold sorted_path, category_dir. intros Hp Hmk Hr Hn Hc Hrq Hnq Hrk Hnk.
  unfold file_manager.sort_one, try_except. unfold bind at 1. unfold bind at 1.
  rewrite exists_present, Hp. cbv beta iota delta [negb].
  unfold bind at 1. rewrite Hmk. cbv beta iota.
  unfold bind at 1. logs. cbv beta iota. unfold bind at 1.
  match goal with |- context [shutil.move p ?q ?w2] =>
    assert (exists w', shutil.move p q w2 = (Ok tt, w')
                       /\ fs w' = <[k := File c]> (delete ks (fs w1)))
      as (w' & -> & Hf)
  end.
  { unfold shutil.move. unfold bind at 1.
    match goal with |- context [os.isdir ?q ?w2] =>
      rewrite (isdir_true q w2 kd Hrq Hnq)
    end.
    cbv beta iota. unfold bind at 1. unfold shutil._samefile.
    match goal with |- context [os.resolve ?w2 p] =>
      change (os.resolve w2 p) with (os.resolve w1 p);
      change (fs w2) with (fs w1)
    end.
    match goal with |- context [os.resolve ?w2 (?a // ?b // ?c)] =>
      change (os.resolve w2 (a // b // c)) with (os.resolve w1 (a // b // c))
    end.
    rewrite Hr, Hrq, Hn, Hnq.
    rewrite bool_decide_eq_false_2 by (intros ->; congruence).
    cbv beta iota. unfold bind at 1. unfold bind at 1.
    rewrite exists_present. unfold present at 1.
    match goal with |- context [os.resolve ?w2 (?a // ?b // ?c // ?d)] =>
      change (os.resolve w2 (a // b // c // d)) with (os.resolve w1 (a // b // c // d));
      change (fs w2) with (fs w1)
    end.
    rewrite Hrk, Hnk. logs. cbv beta iota. unfold try_except.
    match goal with |- context [os.rename p ?q ?w2] =>
      destruct (rename_file_effect p q w2 ks k c Hr Hn Hc Hrk) as (w' & -> & Hf & _)
    end.
    { cbn [fs add_log]. by rewrite Hnk. }
    by exists w'. }
  eexists. split; [reflexivity|]. exact Hf.
Qed.

Lemma sort_onto_a_directory_moves_inside_witness :
  exists w',
    file_manager.sort_one more_examples.manager more_examples.inbox_a_csv []
      more_examples.occupied_world
    = (Ok [mkPath EmptyString ["data"; "a.csv"]], w')
    /\ fs w' = <[ ["data"; "a.csv"; "a.csv"] := File "x,y" ]>
                 (delete ["inbox"; "a.csv"] more_examples.occupied_disk).
Proof.
  destruct (sort_onto_a_directory_moves_inside more_examples.manager
              more_examples.inbox_a_csv [] more_examples.occupied_world
              more_examples.occupied_world
              ["inbox"; "a.csv"] "x,y" ["data"; "a.csv"] ["data"; "a.csv"; "a.csv"])
    as (w' & E & Hf).
  - reflexivity.
  - vm_compute. reflexivity.
  - vm_compute. reflexivity.
  - vm_compute. reflexivity.
  - vm_compute. reflexivity.
  - vm_compute. reflexivity.
  - vm_compute. reflexivity.
  - vm_compute. reflexivity.
  - vm_compute. reflexivity.
  - exists w'. split; [|exact Hf]. rewrite E. do 3 f_equal.
Defined.

Lemma parse_valid_name n :
  valid_name n = true -> pathlib.parse n = mkPath EmptyString [n].
Proof.
  intros Hv. pose proof (valid_name_is_filename _ Hv) as [H1 H2].
  unfold pathlib.parse.
  rewrite (splitroot_no_slash _ H1), (split_no_sep _ _ H1).
  simpl. unfold pathlib.kept_component.
  destruct (String.eqb_spec n EmptyString) as [->|]; [done|].
  destruct (String.eqb_spec n ".") as [->|]; done.
Qed.

Lemma joinpath_valid_name b n :
  valid_name n = true -> b // n = mkPath (root b) (pathlib.tail b ++ [n]).
Proof. intros Hv. unfold joinpath. by rewrite (parse_valid_name _ Hv). Qed.


Lemma makedirs_existing f cur comps k :
  os.walk f cur comps = Ok k -> os.node_at f k = Some Dir ->
  os.makedirs true f cur comps = (Ok k, f).
Proof.
  revert cur. induction comps as [|c comps IH]; intros cur; simpl.
  - intros [= ->] ->. done.
  - destruct (os.node_at f cur) as [[|]|]; [done| |done]. apply IH.
Qed.

Lemma mkdir_existing d w k :
  os.resolve w d = Ok k -> os.node_at (fs w) k = Some Dir ->
  os.mkdir d w = (Ok tt, w).
Proof.
  intros Hr Hn. unfold os.mkdir.
  rewrite (makedirs_existing _ _ _ _ Hr Hn). by destruct w.
Qed.




Lemma name_snoc r t n : name (mkPath r (t ++ [n])) = n.
Proof. unfold name. cbn [pathlib.tail]. by rewrite last_snoc. Qed.

Lemma suffix_of_name p q : name p = name q -> pathlib.suffix p = pathlib.suffix q.
Proof. unfold pathlib.suffix. by intros ->. Qed.

(** X16. From the Sort stage to the report: the path the Sort stage
    gives a file (base directory / category / name) is listed by the
    report with the name and the lowercased extension of the original
    file and with the category as its folder, and it is its own
    destination, so that sorting it again would not move it. *)
Theorem sorted_file_is_reported_under_its_category self p :
  valid_name (file_manager.target_folder_of (file_manager.sort_config self)
                                            (pathlib.suffix p)) = true ->
  valid_name (name p) = true ->
  report_generator.FileInfo_name {| report_generator.path := sorted_path self p |}
  = name p
  /\ report_generator.FileInfo_extension {| report_generator.path := sorted_path self p |}
     = Str.lower (pathlib.suffix p)
  /\ report_generator.FileInfo_folder {| report_generator.path := sorted_path self p |}
     = file_manager.target_folder_of (file_manager.sort_config self) (pathlib.suffix p)
  /\ sorted_path self (sorted_path self p) = sorted_path self p.
Proof.
  intros Hvf Hvn.
  unfold report_generator.FileInfo_name, report_generator.FileInfo_extension,
    report_generator.FileInfo_folder. cbn [report_generator.path].
  set (folder := file_manager.target_folder_of (file_manager.sort_config self)
                   (pathlib.suffix p)) in *.
  assert (sorted_path self p
          = mkPath (root (file_manager.base_dir self))
              ((pathlib.tail (file_manager.base_dir self) ++ [folder]) ++ [name p]))
    as Hq.
  { unfold sorted_path, category_dir. fold folder.
    rewrite (joinpath_valid_name _ _ Hvn).
    by rewrite (joinpath_valid_name _ _ Hvf). }
  assert (name (sorted_path self p) = name p) as Hn by (rewrite Hq; apply name_snoc).
  split; [done|]. split; [by rewrite (suffix_of_name _ p Hn)|]. split.
  - rewrite Hq. unfold pathlib.parent. cbn [root pathlib.tail].
    rewrite removelast_last. apply name_snoc.
  - unfold sorted_path at 1, category_dir at 1.
    by rewrite (suffix_of_name _ p Hn), Hn.
Qed.

Lemma sorted_file_is_reported_under_its_category_witness :
  report_generator.FileInfo_name
    {| report_generator.path := sorted_path more_examples.manager examples.a_csv |}
  = "a.csv"
  /\ report_generator.FileInfo_extension
       {| report_generator.path := sorted_path more_examples.manager examples.a_csv |}
     = ".csv"
  /\ report_generator.FileInfo_folder
       {| report_generator.path := sorted_path more_examples.manager examples.a_csv |}
     = file_manager.target_folder_of
         (file_manager.sort_config more_examples.manager)
         (pathlib.suffix examples.a_csv)
  /\ sorted_path more_examples.manager
       (sorted_path more_examples.manager examples.a_csv)
     = sorted_path more_examples.manager examples.a_csv.
Proof.
  apply (sorted_file_is_reported_under_its_category more_examples.manager
           examples.a_csv).
  - vm_compute. reflexivity.
  - vm_compute. reflexivity.
Defined.

(** * Further properties: the report *)






(** X18. A report that cannot be opened: when the path of the report
    does not resolve (a missing or non-directory parent) or names a
    directory, [generate_file_report] raises that error -- it is not
    caught -- and the file system is left unchanged. *)
Theorem report_that_cannot_be_opened self files output_name w :
  (forall k, os.resolve w (report_generator.reports_dir self // output_name) = Ok k ->
             os.node_at (fs w) k = Some Dir) ->
  exists e w',
    report_generator.generate_file_report self files output_name w = (Raise e, w')
    /\ is_OSError e = true
    /\ fs w' = fs w.
Proof.
  intros H. unfold report_generator.generate_file_report.
  set (report_path := report_generator.reports_dir self // output_name) in *.
  unfold bind at 1. logs. unfold bind at 1, os.with_open_w. unfold bind at 1.
  unfold os.open_w.
  change (os.resolve (add_log ?r w)) with (os.resolve w). cbn [fs add_log].
  destruct (os.resolve w report_path) as [k|e] eqn:Hr.
  - rewrite (H k eq_refl). eexists IsADirectoryError, _. done.
  - exists e. eexists. split; [reflexivity|]. split; [|done].
    unfold os.resolve in Hr. apply walk_raises in Hr. by destruct e.
Qed.

Lemma report_that_cannot_be_opened_witness :
  exists e w',
    report_generator.generate_file_report
      {| report_generator.reports_dir := mkPath EmptyString ["f.txt"] |}
      [examples.a_csv] "report.csv" examples.world0 = (Raise e, w')
    /\ is_OSError e = true
    /\ fs w' = fs examples.world0.
Proof.
  apply (report_that_cannot_be_opened
           {| report_generator.reports_dir := mkPath EmptyString ["f.txt"] |}
           [examples.a_csv] "report.csv" examples.world0).
  intros k. vm_compute. discriminate.
Defined.




(** * Further properties: the whole run *)

Lemma wire_isdir p : preserves wire (os.isdir p).
Proof. unfold os.isdir. wires. Qed.

Lemma wire_move p q : preserves wire (shutil.move p q).
Proof.
  unfold shutil.move, shutil.copy2_unlink.
  pose proof (wire_isdir q). pose proof (wire_isdir p). wires.
Qed.

Lemma wire_rename_files self files prefix suffix :
  preserves wire (file_manager.rename_files self files prefix suffix).
Proof. unfold file_manager.rename_files, file_manager.rename_one. wires. Qed.

Lemma wire_sort_files self files :
  preserves wire (file_manager.sort_files_by_extension self files).
Proof.
  unfold file_manager.sort_files_by_extension, file_manager.sort_one.
  pose proof wire_move. wires.
Qed.

Lemma wire_generate_file_report self files output_name :
  preserves wire (report_generator.generate_file_report self files output_name).
Proof.
  unfold report_generator.generate_file_report, report_generator.write_info,
    report_generator.FileInfo_size_bytes, csv.writerow.
  wires.
Qed.

Lemma wire_FileHandler p : preserves wire (logging.FileHandler p).
Proof. unfold logging.FileHandler. prim_wire. Qed.

Lemma keeps_lib_FileHandler p : keeps_lib (logging.FileHandler p).
Proof.
  intros w r w'. unfold logging.FileHandler.
  repeat case_match; by intros [= _ <-].
Qed.

Lemma wire_setup_logging d : preserves wire (task_automation_bot.setup_logging d).
Proof.
  unfold task_automation_bot.setup_logging. pose proof wire_FileHandler. wires.
Qed.

Lemma keeps_lib_setup_logging d : keeps_lib (task_automation_bot.setup_logging d).
Proof.
  unfold task_automation_bot.setup_logging.
  apply keeps_lib_bind; [apply keeps_lib_mkdir|]. intros _. apply keeps_lib_FileHandler.
Qed.

Lemma notifies_quiet {A} cfg (m : M A) : preserves wire m -> notifies cfg m.
Proof.
  intros Hm w r w' E. exists [], notifier.new_message.
  rewrite app_nil_r. split; [exact (Hm _ _ _ E)|]. split; [constructor|done].
Qed.

Lemma notifies_bind {A B} cfg (m : M A) (k : A -> M B) :
  preserves wire m -> (forall a, notifies cfg (k a)) -> notifies cfg (bind m k).
Proof.
  intros Hm Hk w r w'. unfold bind.
  destruct (m w) as [[a|e] w1] eqn:E; intros H.
  - destruct (Hk a _ _ _ H) as (evs & msg & H1 & H2).
    exists evs, msg. by rewrite H1, (Hm _ _ _ E).
  - injection H as _ <-. exists [], notifier.new_message.
    rewrite app_nil_r. split; [exact (Hm _ _ _ E)|]. split; [constructor|done].
Qed.

Lemma notifies_send {A} self subject body attachment (k : unit -> M A) :
  (forall a, preserves wire (k a)) ->
  notifies (notifier.config self)
    (bind (notifier.send_notification self subject body attachment) k).
Proof.
  intros Hk w r w'. unfold bind.
  destruct (send_notification_trace self subject body attachment w)
    as (evs & msg & H1 & H2 & H3).
  destruct (notifier.send_notification self subject body attachment w)
    as [[a|e] w1] eqn:E; cbn [snd] in H1; intros H.
  - exists evs, msg. rewrite (Hk _ _ _ _ H), H1. split; [done|]. split; [done|].
    intros Hne. by destruct (H3 Hne) as (? & ? & _).
  - injection H as _ <-. exists evs, msg. split; [done|]. split; [done|].
    intros Hne. by destruct (H3 Hne) as (? & ? & _).
Qed.

Lemma run_bind {A B} cfg urls (m : M A) (k : A -> M B) :
  preserves wire m -> keeps_lib m ->
  (forall a, fetches_and_notifies cfg urls (k a)) ->
  fetches_and_notifies cfg urls (bind m k).
Proof.
  intros Hm Hl Hk w r w'. unfold bind.
  destruct (m w) as [[a|e] w1] eqn:E; intros H.
  - destruct (Hk a _ _ _ H) as (t & H1 & H2).
    rewrite (Hl _ _ _ E) in *. exists t. by rewrite H1, (Hm _ _ _ E).
  - injection H as _ <-.
    exists []. rewrite app_nil_r. split; [exact (Hm _ _ _ E)|by left].
Qed.

Lemma run_download {A} cfg self urls (k : list Path -> M A) :
  (forall a, notifies cfg (k a)) ->
  fetches_and_notifies cfg urls (bind (file_downloader.download_files self urls) k).
Proof.
  intros Hk w r w'. unfold bind.
  pose proof (download_files_wire self urls w) as Hw.
  destruct (file_downloader.download_files self urls w) as [[a|e] w1] eqn:E;
    cbn [snd] in Hw; intros H.
  - destruct (Hk a _ _ _ H) as (evs & msg & H1 & H2 & H3).
    exists (requests_of (lib w) urls ++ evs)%list.
    rewrite H1, Hw, app_assoc. split; [done|]. right. by exists evs, msg.
  - injection H as _ <-.
    exists (requests_of (lib w) urls ++ [])%list.
    rewrite Hw, app_nil_r. split; [done|]. right.
    exists [], notifier.new_message. rewrite app_nil_r.
    split; [done|]. split; [constructor|done].
Qed.

Lemma run_try_except {A} cfg urls (m : M A) c h :
  fetches_and_notifies cfg urls m ->
  (forall e, preserves wire (h e)) ->
  fetches_and_notifies cfg urls (try_except m c h).
Proof.
  intros Hm Hh w r w'. unfold try_except.
  destruct (m w) as [[a|e] w1] eqn:E; intros H.
  - injection H as _ <-. exact (Hm _ _ _ E).
  - destruct (Hm _ _ _ E) as (t & H1 & H2). destruct (c e).
    + rewrite (Hh _ _ _ _ H). by exists t.
    + injection H as _ <-. by exists t.
Qed.

Lemma wire_mkdir_then {A} d (a : A) : preserves wire (os.mkdir d;; ret a).
Proof. wires. Qed.

Lemma stages_traffic now_str cfg urls prefix suffix :
  fetches_and_notifies (config.email cfg) urls
    (task_automation_bot.stages now_str cfg urls prefix suffix).
Proof.
  unfold task_automation_bot.stages.
  apply run_bind.
  { unfold file_downloader.__init__. wires. }
  { unfold file_downloader.__init__. keeps. }
  intros downloader. apply run_download. intros downloaded_files.
  apply notifies_bind; [wires|]. intros _.
  apply notifies_bind; [unfold file_manager.__init__; wires|]. intros file_manager.
  apply notifies_bind; [apply wire_rename_files|]. intros renamed_files.
  apply notifies_bind; [wires|]. intros _.
  apply notifies_bind.
  { destruct (truthy _); [apply wire_sort_files|apply preserves_ret]. }
  intros sorted_files.
  apply notifies_bind; [wires|]. intros _.
  apply notifies_bind; [unfold report_generator.__init__; wires|].
  intros report_generator.
  apply notifies_bind; [apply wire_generate_file_report|]. intros report_path.
  apply (notifies_send {| notifier.config := config.email cfg |}).
  intros _. wires.
Qed.

(** X20. A run raises only at start-up: [main] raises what the loading of
    the configuration or the setting up of the logging raises, and once
    both have succeeded it returns normally, whatever happens in the
    stages -- every later error is caught. *)
Theorem main_raises_only_at_start_up BASE_DIR now_str untyped_stages w :
  (task_automation_bot.main BASE_DIR now_str untyped_stages w).1
  = match (config.load_config BASE_DIR None w).1 with
    | Raise e => Raise e
    | Ok cfg =>
        match (task_automation_bot.setup_logging (config.logs_dir cfg) w).1 with
        | Raise e => Raise e
        | Ok _ => Ok tt
        end
    end.
Proof.
  unfold task_automation_bot.main. unfold bind at 1.
  destruct (config.load_config BASE_DIR None w) as [[cfg|e] w0] eqn:E;
    pose proof (unchanged_load_config _ _ _ _ _ E) as ->; [|done].
  cbn [fst]. unfold bind at 1.
  destruct (task_automation_bot.setup_logging _ w) as [[[]|e] w1]; [|done].
  cbn [fst]. unfold bind at 1. logs. unfold try_except.
  match goal with
  | |- context [let (r, w') := ?m ?w0 in _] => destruct (m w0) as [[[]|e] w2]
  end; reflexivity.
Qed.

Lemma main_traffic BASE_DIR now_str untyped_stages w cfg urls prefix suffix :
  (config.load_config BASE_DIR None w).1 = Ok cfg ->
  task_automation_bot.typed_settings cfg = Some (urls, prefix, suffix) ->
  exists traffic,
    wire (task_automation_bot.main BASE_DIR now_str untyped_stages w).2
    = (wire w ++ traffic)%list
    /\ run_traffic (config.email cfg) (lib w) urls traffic.
Proof.
  intros Hload Ht.
  unfold task_automation_bot.main. unfold bind at 1.
  destruct (config.load_config BASE_DIR None w) as [[cfg'|e] w0] eqn:E;
    pose proof (unchanged_load_config _ _ _ _ _ E) as ->; simplify_eq/=.
  rewrite Ht.
  match goal with
  | |- context [wire (?m w).2] =>
      assert (fetches_and_notifies (config.email cfg) urls m) as H
  end.
  { apply run_bind; [apply wire_setup_logging|apply keeps_lib_setup_logging|].
    intros _. apply run_bind; [wires|keeps|]. intros _.
    apply run_try_except; [by apply stages_traffic|]. intros e. wires. }
  match goal with
  | |- context [wire (?m w).2] => destruct (m w) as [r w'] eqn:Em
  end.
  exact (H _ _ _ Em).
Qed.


(** X21. The network traffic of a whole run, for settings whose URLs are
    a list of strings and whose prefix and suffix are strings: nothing at
    all, or one GET request per URL that [urlparse] accepts, in order,
    followed by at most one SMTP session -- and by none unless email is
    enabled and has recipients.  No request is repeated, and nothing is
    sent to the mail server before the downloads are over. *)
Theorem main_network_traffic BASE_DIR now_str untyped_stages w cfg urls prefix suffix :
  (config.load_config BASE_DIR None w).1 = Ok cfg ->
  task_automation_bot.typed_settings cfg = Some (urls, prefix, suffix) ->
  exists traffic,
    wire (task_automation_bot.main BASE_DIR now_str untyped_stages w).2
    = (wire w ++ traffic)%list
    /\ run_traffic (config.email cfg) (lib w) urls traffic.
Proof. apply main_traffic. Qed.

Lemma main_network_traffic_witness :
  exists traffic,
    wire (task_automation_bot.main examples.here "20260101_000000" (fun _ => ret tt)
            (examples.world_with_document
               (PDict [("download_urls", PList [PStr "http://example.com/a.csv"])]))).2
    = (wire (examples.world_with_document
               (PDict [("download_urls", PList [PStr "http://example.com/a.csv"])]))
       ++ traffic)%list
    /\ run_traffic config.EmailConfig_default
         (lib (examples.world_with_document
                 (PDict [("download_urls", PList [PStr "http://example.com/a.csv"])])))
         ["http://example.com/a.csv"] traffic.
Proof.
  apply (main_network_traffic examples.here "20260101_000000" (fun _ => ret tt)
           (examples.world_with_document
              (PDict [("download_urls", PList [PStr "http://example.com/a.csv"])]))
           {| config.download_urls := PList [PStr "http://example.com/a.csv"];
              config.download_dir := examples.here // "downloads";
              config.working_dir := examples.here // "downloads";
              config.reports_dir := examples.here // "reports";
              config.logs_dir := examples.here // "logs";
              config.rename_prefix := PStr EmptyString;
              config.rename_suffix := PStr EmptyString;
              config.sort_by_extension := PBool true;
              config.email := config.EmailConfig_default |}
           ["http://example.com/a.csv"] EmptyString EmptyString).
  - vm_compute. reflexivity.
  - reflexivity.
Defined.

(** X22. Out of the box the run is offline: when the settings file does
    not exist, [main] works with the defaults -- no URL and email
    disabled -- and nothing at all goes over the network. *)
Theorem run_without_settings_is_offline BASE_DIR now_str untyped_stages w :
  present w (BASE_DIR // "config" // "settings.json") = false ->
  wire (task_automation_bot.main BASE_DIR now_str untyped_stages w).2 = wire w.
Proof.
  intros Hp.
  pose proof (load_config_missing BASE_DIR _ w Hp) as Hload.
  change (config.load_config BASE_DIR (Some (BASE_DIR // "config" // "settings.json")))
    with (config.load_config BASE_DIR None) in Hload.
  destruct (main_traffic BASE_DIR now_str untyped_stages w (config.default BASE_DIR)
              [] EmptyString EmptyString) as (t & -> & Ht).
  { by rewrite Hload. }
  { reflexivity. }
  destruct Ht as [->|(evs & msg & -> & _ & He)]; [by rewrite app_nil_r|].
  destruct evs as [|ev evs]; [by rewrite app_nil_r|].
  by destruct He as [? _].
Qed.

Lemma run_without_settings_is_offline_witness :
  wire (task_automation_bot.main (mkPath EmptyString ["bot"]) "20260101_000000"
          (fun _ => ret tt) examples.world0).2
  = wire examples.world0.
Proof.
  apply (run_without_settings_is_offline (mkPath EmptyString ["bot"])
           "20260101_000000" (fun _ => ret tt) examples.world0).
  vm_compute. reflexivity.
Defined.

Lemma closes_bind {A} r (m : M A) (k : A -> M unit) :
  (forall a, closes_with r (k a)) -> closes_with r (bind m k).
Proof.
  intros Hk w w'. unfold bind. destruct (m w) as [[a|e] w1]; [apply Hk|done].
Qed.

Lemma closes_logger_info f a : closes_with (LogRecord INFO f a None) (logger_info f a).
Proof. intros w w' [= <-]. apply last_record_add_log. Qed.

Lemma stages_close now_str cfg urls prefix suffix :
  closes_with completion_record
    (task_automation_bot.stages now_str cfg urls prefix suffix).
Proof.
  unfold task_automation_bot.stages.
  repeat (apply closes_bind; intros ?). apply closes_logger_info.
Qed.

(** X23. How a run ends in the log: for settings whose URLs are a list of
    strings and whose prefix and suffix are strings, once the
    configuration is loaded and the logging set up, [main] returns
    normally and its last log record is either the completion message
    -- also when downloads, renamings, moves or the email failed, since
    these are caught inside the stages -- or the fatal-error record
    carrying the exception that left a stage. *)
Theorem main_ends_with_completion_or_fatal_error
    BASE_DIR now_str untyped_stages w cfg urls prefix suffix :
  (config.load_config BASE_DIR None w).1 = Ok cfg ->
  task_automation_bot.typed_settings cfg = Some (urls, prefix, suffix) ->
  (task_automation_bot.setup_logging (config.logs_dir cfg) w).1 = Ok tt ->
  exists w',
    task_automation_bot.main BASE_DIR now_str untyped_stages w = (Ok tt, w')
    /\ (last_record w' = Some completion_record
        \/ exists e, last_record w' = Some (fatal_record e)).
Proof.
  intros Hload Ht Hs.
  unfold task_automation_bot.main. unfold bind at 1.
  destruct (config.load_config BASE_DIR None w) as [[cfg'|e] w0] eqn:E;
    pose proof (unchanged_load_config _ _ _ _ _ E) as ->; simplify_eq/=.
  rewrite Ht. unfold bind at 1.
  destruct (task_automation_bot.setup_logging _ w) as [[[]|e] w1]; [|done].
  unfold bind at 1. logs. unfold try_except.
  match goal with
  | |- context [let (r, w') := ?m ?w0 in _] =>
      destruct (m w0) as [[[]|e] w2] eqn:Em
  end.
  - exists w2. split; [done|]. left. exact (stages_close _ _ _ _ _ _ _ Em).
  - eexists. split; [reflexivity|]. right. exists e. apply last_record_add_log.
Qed.

Lemma main_ends_with_completion_or_fatal_error_witness :
  exists w',
    task_automation_bot.main examples.here "20260101_000000" (fun _ => ret tt)
      (examples.world_with_document
         (PDict [("download_urls", PList [PStr "http://example.com/a.csv"])]))
    = (Ok tt, w')
    /\ (last_record w' = Some completion_record
        \/ exists e, last_record w' = Some (fatal_record e)).
Proof.
  apply (main_ends_with_completion_or_fatal_error examples.here "20260101_000000"
           (fun _ => ret tt)
           (examples.world_with_document
              (PDict [("download_urls", PList [PStr "http://example.com/a.csv"])]))
           {| config.download_urls := PList [PStr "http://example.com/a.csv"];
              config.download_dir := examples.here // "downloads";
              config.working_dir := examples.here // "downloads";
              config.reports_dir := examples.here // "reports";
              config.logs_dir := examples.here // "logs";
              config.rename_prefix := PStr EmptyString;
              config.rename_suffix := PStr EmptyString;
              config.sort_by_extension := PBool true;
              config.email := config.EmailConfig_default |}
           ["http://example.com/a.csv"] EmptyString EmptyString).
  - vm_compute. reflexivity.
  - reflexivity.
  - vm_compute. reflexivity.
Defined.

(** * Further properties: the directories of the stages *)

Lemma node_at_mono (f f' : gmap (list string) node) k n :
  f ⊆ f' -> os.node_at f k = Some n -> os.node_at f' k = Some n.
Proof.
  intros Hsub. destruct k as [|c k]; [done|]. simpl.
  intros H. by eapply lookup_weaken.
Qed.

Lemma makedirs_made exist_ok f cur comps k f' :
  os.makedirs exist_ok f cur comps = (Ok k, f') ->
  os.walk f' cur comps = Ok k /\ os.node_at f' k = Some Dir /\ f ⊆ f'.
Proof.
  revert f cur. induction comps as [|c comps IH]; intros f cur; simpl.
  - destruct (os.node_at f cur) as [[|]|] eqn:Hn.
    + done.
    + destruct exist_ok; [|done]. by intros [= <- <-].
    + intros [= <- <-]. destruct cur as [|c cur]; [done|]. simpl in *.
      split; [done|]. split; [apply lookup_insert_eq|by apply insert_subseteq].
  - destruct (os.node_at f cur) as [[|]|] eqn:Hn.
    + done.
    + intros H. destruct (IH _ _ H) as (Hw & Hk & Hsub).
      by rewrite (node_at_mono _ _ _ _ Hsub Hn).
    + intros H. destruct (IH _ _ H) as (Hw & Hk & Hsub).
      destruct cur as [|c' cur]; [done|]. simpl in Hn.
      assert (f ⊆ <[c' :: cur := Dir]> f) as Hsub1 by by apply insert_subseteq.
      split; [|split; [done|by etrans]].
      assert (os.node_at f' (c' :: cur) = Some Dir) as ->; [|done].
      apply (node_at_mono _ _ _ _ Hsub). simpl. apply lookup_insert_eq.
Qed.

Lemma mkdir_made d w w' :
  os.mkdir d w = (Ok tt, w') ->
  (exists k, os.resolve w' d = Ok k /\ os.node_at (fs w') k = Some Dir)
  /\ fs w ⊆ fs w'.
Proof.
  unfold os.mkdir.
  destruct (os.makedirs true (fs w) (os.start w d) (pathlib.tail d)) as [[k|e] f'] eqn:E;
    [|done].
  intros [= <-]. destruct (makedirs_made _ _ _ _ _ _ E) as (Hw & Hk & Hsub).
  split; [|done]. exists k. split; [|done]. exact Hw.
Qed.

(** X24. The directories of the stages: when the constructor of
    [FileDownloader], [FileManager] or [ReportGenerator] returns, the
    directory it was given exists as a directory, with the ancestors it
    needed, and every file and directory that existed before is still
    there, unchanged; when the directory existed already, nothing
    changes at all. *)
Theorem constructors_make_their_directory (d : Path) (w : world) :
  (forall self w',
      file_downloader.__init__ d w = (Ok self, w') ->
      file_downloader.download_dir self = d
      /\ (exists k, os.resolve w' d = Ok k /\ os.node_at (fs w') k = Some Dir)
      /\ fs w ⊆ fs w')
  /\ (forall sort_config self w',
        file_manager.__init__ d sort_config w = (Ok self, w') ->
        file_manager.base_dir self = d
        /\ (exists k, os.resolve w' d = Ok k /\ os.node_at (fs w') k = Some Dir)
        /\ fs w ⊆ fs w')
  /\ (forall self w',
        report_generator.__init__ d w = (Ok self, w') ->
        report_generator.reports_dir self = d
        /\ (exists k, os.resolve w' d = Ok k /\ os.node_at (fs w') k = Some Dir)
        /\ fs w ⊆ fs w')
  /\ (forall k, os.resolve w d = Ok k -> os.node_at (fs w) k = Some Dir ->
        (file_downloader.__init__ d w).2 = w
        /\ (forall sort_config, (file_manager.__init__ d sort_config w).2 = w)
        /\ (report_generator.__init__ d w).2 = w).
Proof.
  split; [|split; [|split]].
  - intros self w'. unfold file_downloader.__init__, bind.
    destruct (os.mkdir d w) as [[[]|e] w1] eqn:E; [|done].
    intros [= <- <-]. split; [done|]. by apply mkdir_made.
  - intros sort_config self w'. unfold file_manager.__init__, bind.
    destruct (os.mkdir d w) as [[[]|e] w1] eqn:E; [|done].
    intros [= <- <-]. split; [done|]. by apply mkdir_made.
  - intros self w'. unfold report_generator.__init__, bind.
    destruct (os.mkdir d w) as [[[]|e] w1] eqn:E; [|done].
    intros [= <- <-]. split; [done|]. by apply mkdir_made.
  - intros k Hr Hn.
    unfold file_downloader.__init__, file_manager.__init__,
      report_generator.__init__, bind.
    by rewrite (mkdir_existing d w k Hr Hn).
Qed.

Lemma constructors_make_their_directory_witness :
  exists k,
    os.resolve
      (file_downloader.__init__ (mkPath EmptyString ["new"; "files"]) examples.world0).2
      (mkPath EmptyString ["new"; "files"]) = Ok k
    /\ os.node_at
         (fs (file_downloader.__init__ (mkPath EmptyString ["new"; "files"])
                examples.world0).2) k = Some Dir.
Proof.
  destruct (constructors_make_their_directory (mkPath EmptyString ["new"; "files"])
              examples.world0) as (H & _).
  apply (H {| file_downloader.download_dir := mkPath EmptyString ["new"; "files"] |}
           (file_downloader.__init__ (mkPath EmptyString ["new"; "files"])
              examples.world0).2).
  vm_compute. reflexivity.
Defined.

(** * Further properties: from the renaming to the sorting *)

Lemma length_append s t : String.length (s +:+ t) = String.length s + String.length t.
Proof. induction s as [|c s IH]; [done|]. rewrite append_cons. simpl. by rewrite IH. Qed.

Lemma length_take n s : n <= String.length s -> String.length (Str.take n s) = n.
Proof.
  revert s. induction n as [|n IH]; intros [|c r]; simpl; try lia.
  intros H. rewrite IH; lia.
Qed.

Lemma drop_append s t : Str.drop (String.length s) (s +:+ t) = t.
Proof. induction s as [|c s IH]; [by destruct t|]. by rewrite append_cons. Qed.

Lemma rfind_none c s : Str.contains c s = false -> Str.rfind c s = (-1)%Z.
Proof.
  induction s as [|x r IH]; simpl; [done|].
  intros [H1 H2]%orb_false_elim. by rewrite (IH H2), H1.
Qed.

Lemma rfind_append c s rest :
  Str.contains c rest = false ->
  Str.rfind c (s +:+ String c rest) = Str.len s.
Proof.
  intros Hr. unfold Str.len. induction s as [|x s IH].
  - rewrite append_empty_l. simpl. rewrite (rfind_none _ _ Hr). simpl.
    by rewrite Ascii.eqb_refl.
  - rewrite append_cons. simpl Str.rfind. rewrite IH.
    rewrite (proj2 (Z.leb_le _ _)) by lia. simpl String.length. lia.
Qed.

Lemma suffix_of_new_name a ext :
  a <> EmptyString ->
  (exists rest, ext = String "." rest /\ rest <> EmptyString
                /\ Str.contains "." rest = false) ->
  pathlib.has_suffix (a +:+ ext) = true
  /\ Str.drop (Z.to_nat (Str.rfind "." (a +:+ ext))) (a +:+ ext) = ext.
Proof.
  intros Ha (rest & -> & Hrest & Hc).
  unfold pathlib.has_suffix. rewrite (rfind_append _ _ _ Hc).
  unfold Str.len. rewrite Nat2Z.id, drop_append. split; [|done].
  rewrite length_append. simpl String.length.
  destruct a as [|x a]; [done|]. destruct rest as [|y rest]; [done|].
  simpl String.length. apply andb_true_iff.
  split; [apply Z.ltb_lt|apply Z.ltb_lt]; lia.
Qed.

(** X25. From the Rename stage to the Sort stage: renaming a file that
    has an extension never changes the extension, whatever the prefix
    and the suffix are (dots included), so the renamed file is sorted
    into the category the original would have gone to. *)
Theorem renaming_keeps_the_extension prefix suffix p q :
  valid_name (name p) = true ->
  pathlib.has_suffix (name p) = true ->
  with_name p (file_manager._build_new_name (name p) prefix suffix) = Ok q ->
  pathlib.suffix q = pathlib.suffix p
  /\ forall cfg,
       file_manager.target_folder_of cfg (pathlib.suffix q)
       = file_manager.target_folder_of cfg (pathlib.suffix p).
Proof.
  intros Hv Hs Hq.
  assert (pathlib.suffix q = pathlib.suffix p) as H; [|by rewrite H].
  pose proof (valid_name_is_filename _ Hv) as Hf.
  revert Hq. unfold with_name.
  destruct (String.eqb (name p) EmptyString); [done|].
  destruct (negb (valid_name _)); [done|]. intros [= <-].
  unfold pathlib.suffix at 1. rewrite name_snoc.
  unfold file_manager._build_new_name, pathlib.stem.
  unfold pathlib.suffix at 1 2 3. rewrite (parse_filename _ Hf), Hs.
  set (n := name p) in *. set (i := Z.to_nat (Str.rfind "." n)).
  pose proof (rfind_bounds "." n) as Hb. unfold Str.len in Hb.
  pose proof Hs as Hs'. unfold pathlib.has_suffix, Str.len in Hs.
  apply andb_prop in Hs as [H1%Z.ltb_lt H2%Z.ltb_lt].
  destruct (drop_rfind "." n ltac:(lia)) as (rest & Hd & Hc). fold i in Hd.
  assert (String.length (Str.take i n) = i) as Hlen by (apply length_take; lia).
  assert (rest <> EmptyString) as Hrest.
  { intros ->. pose proof (f_equal String.length (take_drop_str i n)) as Hl.
    rewrite length_append, Hlen, Hd in Hl. simpl in Hl. lia. }
  rewrite <- !append_assoc.
  destruct (suffix_of_new_name ((prefix +:+ Str.take i n) +:+ suffix) (Str.drop i n))
    as [-> ->]; [| |by unfold pathlib.suffix; fold n; rewrite Hs'].
  - intros E. apply (f_equal String.length) in E.
    rewrite !length_append, Hlen in E. simpl in E. lia.
  - exists rest. done.
Qed.

Lemma renaming_keeps_the_extension_witness :
  pathlib.suffix (mkPath EmptyString ["downloads"; "2025_a_v1.0.csv"])
  = pathlib.suffix examples.a_csv
  /\ forall cfg,
       file_manager.target_folder_of cfg
         (pathlib.suffix (mkPath EmptyString ["downloads"; "2025_a_v1.0.csv"]))
       = file_manager.target_folder_of cfg (pathlib.suffix examples.a_csv).
Proof.
  apply (renaming_keeps_the_extension "2025_" "_v1.0" examples.a_csv
           (mkPath EmptyString ["downloads"; "2025_a_v1.0.csv"])).
  - vm_compute. reflexivity.
  - vm_compute. reflexivity.
  - vm_compute. reflexivity.
Defined.
